(** * Misinformation countermeasures ABM: agents and engine

    A shallow embedding of [src/agent.py] and [src/model.py].

    Conventions of the embedding.
    - Python floats are idealised: probabilities and random draws are real
      numbers ([R]), timestamps are rationals ([Q]).
    - Python sets of misinformation identifiers are [gset string]; the two
      dictionaries of a countermeasure agent are [gmap string Z].
    - A Python call that can raise returns a [result]; [Raise] carries no
      state.  The methods of the agents raise before they change anything;
      an exception during the construction of the model ends the
      construction.
    - The shared generator [model.random] is a stream of draws with a cursor,
      threaded explicitly through every function that draws from it.
    - Calls from an agent back into the model ([user_retweet],
      [record_retraction], [deploy_countermeasure]) and the model's call of
      [process_tweet] are recorded, in call order, as a list of [model_call]. *)

From Stdlib Require Import Reals Lra ZArith QArith Qround String List.
From Stdlib Require Import Sorting.Sorted Sorting.Permutation.
From stdpp Require Import gmap strings list fin_maps sorting.

Local Open Scope Z_scope.
Local Open Scope string_scope.
Local Open Scope list_scope.
#[local] Set Warnings "-clear-no-such-hyp".

(** ** Exceptions *)

Inductive exn : Type :=
| KeyError (key : string)
| AttributeError (attr : string)
| ValueError (msg : string).

Inductive result (A : Type) : Type :=
| Ok (a : A)
| Raise (e : exn).
Arguments Ok {A} a.
Arguments Raise {A} e.

#[global] Instance result_ret : MRet result := @Ok.
#[global] Instance result_bind : MBind result := λ A B k r,
  match r with
  | Ok a => k a
  | Raise e => Raise e
  end.

(** ** Tweets

    A tweet is a Python dict (a row of the timeline).  Only the keys the
    simulation reads are kept; a key that is absent from the dict (or holds
    NaN in the data frame) is [None]. *)

Record tweet : Type := Tweet {
  tw_misinfo_id : option string;
  tw_user_id : option string;
  tw_is_source : bool;
  tw_time_since_start : option Q
}.

(** ** Calls into the model

    Modelled from the spec: [user_retweet], [record_retraction] and
    [deploy_countermeasure] are called on the model by the agents but are
    not defined in [src/model.py]; the spec describes them as notifications
    to the engine.  [process_tweet] has an empty body in the source.  Each
    call is recorded with the identity of the calling agent. *)

Inductive model_call : Type :=
| user_retweet (agent : string) (tweet_data : tweet)
| record_retraction (agent : string) (misinfo_id : string)
| deploy_countermeasure (agent : string) (misinfo_id : string)
| process_tweet (tweet_data : tweet).

(** ** The shared random generator *)

Record Random : Type := mkRandom {
  draws : nat → R;
  cursor : nat
}.

(** [random.random()]: the next draw, and the generator advanced by one. *)
Definition random (g : Random) : R * Random :=
  (draws g (cursor g), mkRandom (draws g) (S (cursor g))).

(** ** agent.py: UserAgent *)

Module UserAgent.

(** The [user_data] dict handed to the constructor. *)
Record user_data : Type := UserData {
  ud_user_id : option string;
  ud_screen_name : option string;
  ud_name : option string;
  ud_verified : option bool;
  ud_followers_count : option Z;
  ud_location : option string;
  ud_description : option string
}.

Record t : Type := Build {
  unique_id : string;
  user_id : string;
  screen_name : string;
  name : string;
  verified : bool;
  followers_count : Z;
  location : string;
  description : string;
  received_misinfo : gset string;
  retweeted_misinfo : gset string;
  received_countermeasures : gset string;
  retweet_probability : R;
  susceptibility_to_countermeasures : R
}.

Definition set_received_misinfo (s : gset string) (a : t) : t :=
  Build (unique_id a) (user_id a) (screen_name a) (name a) (verified a)
    (followers_count a) (location a) (description a)
    s (retweeted_misinfo a) (received_countermeasures a)
    (retweet_probability a) (susceptibility_to_countermeasures a).

Definition set_retweeted_misinfo (s : gset string) (a : t) : t :=
  Build (unique_id a) (user_id a) (screen_name a) (name a) (verified a)
    (followers_count a) (location a) (description a)
    (received_misinfo a) s (received_countermeasures a)
    (retweet_probability a) (susceptibility_to_countermeasures a).

Definition set_received_countermeasures (s : gset string) (a : t) : t :=
  Build (unique_id a) (user_id a) (screen_name a) (name a) (verified a)
    (followers_count a) (location a) (description a)
    (received_misinfo a) (retweeted_misinfo a) s
    (retweet_probability a) (susceptibility_to_countermeasures a).

(** [_calculate_retweet_probability], on the two attributes it reads. *)
Definition _calculate_retweet_probability
    (verified : bool) (followers_count : Z) : R :=
  let base_prob := (1 / 10)%R in
  let base_prob := if verified then (base_prob * (8 / 10))%R else base_prob in
  let follower_factor := 1%R in
  let follower_factor :=
    if bool_decide (followers_count > 0)%Z
    then (1 - Rmin (5 / 10) (ln (IZR (1 + followers_count)) / 30))%R
    else follower_factor in
  (base_prob * follower_factor)%R.

(** [_calculate_susceptibility]: a draw is consumed only for an
    unverified user. *)
Definition _calculate_susceptibility
    (verified : bool) (g : Random) : R * Random :=
  if verified then ((7 / 10)%R, g)
  else let '(u, g') := random g in ((3 / 10 + 4 / 10 * u)%R, g').

Definition __init__ (unique_id : string) (g : Random) (d : user_data)
    : t * Random :=
  let verified := default false (ud_verified d) in
  let followers_count := default 0 (ud_followers_count d) in
  let rp := _calculate_retweet_probability verified followers_count in
  let '(s, g') := _calculate_susceptibility verified g in
  (Build unique_id
     (default unique_id (ud_user_id d))
     (default "" (ud_screen_name d))
     (default "" (ud_name d))
     verified followers_count
     (default "" (ud_location d))
     (default "" (ud_description d))
     ∅ ∅ ∅ rp s, g').

(** The outcome of a method: the agent, the generator, and the calls made
    on the model. *)
Definition outcome : Type := t * Random * list model_call.

Definition _consider_retweeting (self : t) (tweet_data : tweet) (g : Random)
    : result outcome :=
  match tw_misinfo_id tweet_data with
  | None => Raise (KeyError "misinfo_id")
  | Some misinfo_id =>
    if decide (misinfo_id ∈ retweeted_misinfo self) then Ok (self, g, [])
    else
      let rt_prob := retweet_probability self in
      let rt_prob :=
        if decide (misinfo_id ∈ received_countermeasures self)
        then (rt_prob * (1 - susceptibility_to_countermeasures self))%R
        else rt_prob in
      let '(u, g') := random g in
      if Rlt_dec u rt_prob
      then Ok (set_retweeted_misinfo
                 ({[misinfo_id]} ∪ retweeted_misinfo self) self,
               g', [user_retweet (unique_id self) tweet_data])
      else Ok (self, g', [])
  end.

Definition receive_tweet (self : t) (tweet_data : tweet)
    (is_countermeasure : bool) (g : Random) : result outcome :=
  match tw_misinfo_id tweet_data with
  | None => Raise (KeyError "misinfo_id")
  | Some misinfo_id =>
    if is_countermeasure then
      let self1 := set_received_countermeasures
                     ({[misinfo_id]} ∪ received_countermeasures self) self in
      if decide (misinfo_id ∈ retweeted_misinfo self1) then
        let '(u, g') := random g in
        if Rlt_dec u (susceptibility_to_countermeasures self1 * (3 / 10))%R
        then Ok (set_retweeted_misinfo
                   (retweeted_misinfo self1 ∖ {[misinfo_id]}) self1,
                 g', [record_retraction (unique_id self1) misinfo_id])
        else Ok (self1, g', [])
      else Ok (self1, g, [])
    else
      let self1 := set_received_misinfo
                     ({[misinfo_id]} ∪ received_misinfo self) self in
      _consider_retweeting self1 tweet_data g
  end.

(** [step]: no autonomous behaviour. *)
Definition step (self : t) : t := self.

End UserAgent.

(** ** agent.py: CountermeasureAgent *)

Module CountermeasureAgent.

(** The [settings] dict handed to the constructor. *)
Record settings : Type := Settings {
  s_activation_threshold : option Q;
  s_target_threshold : option Q;
  s_delay : option Z;
  s_coverage_ratio : option Q
}.

(** The empty dict [{}]. *)
Definition no_settings : settings := Settings None None None None.

(** An attribute that [__init__] did not assign is [None]. *)
Record t : Type := Build {
  unique_id : string;
  type : string;
  activation_threshold : option Q;
  target_threshold : option Q;
  delay : option Z;
  coverage_ratio : option Q;
  active_countermeasures : gmap string Z;
  pending_countermeasures : gmap string Z
}.

Definition set_active_countermeasures (m : gmap string Z) (a : t) : t :=
  Build (unique_id a) (type a) (activation_threshold a) (target_threshold a)
    (delay a) (coverage_ratio a) m (pending_countermeasures a).

Definition set_pending_countermeasures (m : gmap string Z) (a : t) : t :=
  Build (unique_id a) (type a) (activation_threshold a) (target_threshold a)
    (delay a) (coverage_ratio a) (active_countermeasures a) m.

Definition __init__ (unique_id : string) (countermeasure_type : string)
    (settings : option settings) : result t :=
  let settings := default no_settings settings in
  let '(activation_threshold, target_threshold, delay, coverage_ratio) :=
    if decide (countermeasure_type = "key_node") then
      (Some (default (1 # 10)%Q (s_activation_threshold settings)),
       Some (default (100000 # 1)%Q (s_target_threshold settings)),
       None, None)
    else if decide (countermeasure_type = "fact_check") then
      (Some (default (50 # 1)%Q (s_activation_threshold settings)),
       None,
       Some (default 30 (s_delay settings)),
       None)
    else if decide (countermeasure_type = "early_warning") then
      (Some (default (10 # 1)%Q (s_activation_threshold settings)),
       None, None,
       Some (default (3 # 10)%Q (s_coverage_ratio settings)))
    else (None, None, None, None) in
  Ok (Build unique_id countermeasure_type
        activation_threshold target_threshold delay coverage_ratio ∅ ∅).

Definition activate_countermeasure (self : t) (misinfo_id : string)
    (current_step : Z) : result (t * list model_call) :=
  if decide (type self = "fact_check") then
    match delay self with
    | None => Raise (AttributeError "delay")
    | Some d =>
      Ok (set_pending_countermeasures
            (<[misinfo_id := current_step + d]> (pending_countermeasures self))
            self, [])
    end
  else
    Ok (set_active_countermeasures
          (<[misinfo_id := current_step]> (active_countermeasures self)) self,
        [deploy_countermeasure (unique_id self) misinfo_id]).

(** First loop of [step]: over the items of the pending dict. *)
Fixpoint collect_due (current_step : Z) (items : list (string * Z))
    (to_activate : list string) (active : gmap string Z)
    : list string * gmap string Z :=
  match items with
  | [] => (to_activate, active)
  | (misinfo_id, activation_step) :: items =>
    if bool_decide (current_step >= activation_step)%Z
    then collect_due current_step items
           (to_activate ++ [misinfo_id]) (<[misinfo_id := current_step]> active)
    else collect_due current_step items to_activate active
  end.

(** Second loop of [step]: [del] raises [KeyError] on an absent key. *)
Fixpoint deploy_due (uid : string) (to_activate : list string)
    (pending : gmap string Z) (calls : list model_call)
    : result (gmap string Z * list model_call) :=
  match to_activate with
  | [] => Ok (pending, calls)
  | misinfo_id :: to_activate =>
    match pending !! misinfo_id with
    | None => Raise (KeyError misinfo_id)
    | Some _ =>
      deploy_due uid to_activate (delete misinfo_id pending)
        (calls ++ [deploy_countermeasure uid misinfo_id])
    end
  end.

(** [step]; [step_count] is the model's attribute of that name when the
    model has one ([getattr(self.model, "step_count", 0)]).  The pending
    dict is traversed in the order of [map_to_list]. *)
Definition step (self : t) (step_count : option Z)
    : result (t * list model_call) :=
  let current_step := default 0 step_count in
  let '(to_activate, active) :=
    collect_due current_step (map_to_list (pending_countermeasures self))
      [] (active_countermeasures self) in
  '(pending, calls) ←
    deploy_due (unique_id self) to_activate (pending_countermeasures self) [];
  Ok (set_pending_countermeasures pending
        (set_active_countermeasures active self), calls).

End CountermeasureAgent.

(** ** model.py: MisinformationModel *)

Module MisinformationModel.

(** The timeline data frame: its column names and its rows. *)
Record DataFrame : Type := Frame {
  columns : list string;
  records : list tweet
}.

(** The [countermeasure_settings] dict. *)
Record countermeasure_settings : Type := CmSettings {
  key_node_enabled : option bool;
  key_node_threshold : option Q;
  key_node_followers : option Q;
  fact_check_enabled : option bool;
  fact_check_threshold : option Q;
  fact_check_delay : option Z;
  early_warning_enabled : option bool;
  early_warning_threshold : option Q;
  early_warning_coverage : option Q
}.

Inductive agent : Type :=
| User (u : UserAgent.t)
| Countermeasure (c : CountermeasureAgent.t).

(** The attributes of the model that the simulation loop reads or writes.
    [num_steps] and [step_count] are never assigned in the source: they are
    whatever the framework base class provides, [step_count] possibly
    nothing. *)
Record t : Type := Build {
  time_unit : Z;
  num_steps : Z;
  step_count : option Z;
  scheduled_tweets : list (Z * tweet);
  agents : list agent;
  calls : list model_call
}.

(** *** _create_agents *)

(** A [user_id] that is absent or empty is falsy. *)
Definition truthy_id (o : option string) : option string :=
  match o with
  | Some s => if decide (s = "") then None else Some s
  | None => None
  end.

(** [self.add(agent)] and [self.add_agent(agent)], the two names under which
    [_create_agents] registers an agent.  The class defines neither method
    and nothing else in the sources does: looking the name up on the model
    raises [AttributeError], whatever the agent. *)
Definition add (registered : list agent) (x : agent) : result (list agent) :=
  Raise (AttributeError "add").

Definition add_agent (registered : list agent) (x : agent)
    : result (list agent) :=
  Raise (AttributeError "add_agent").

(** The loop over the user records.  [self.grid.place_agent] comes after
    [self.add] and changes nothing the model reads. *)
Fixpoint create_user_agents (users_data : list UserAgent.user_data)
    (g : Random) (acc : list agent) : result (list agent * Random) :=
  match users_data with
  | [] => Ok (acc, g)
  | d :: users_data =>
    match truthy_id (UserAgent.ud_user_id d) with
    | None => create_user_agents users_data g acc
    | Some user_id =>
      let '(a, g') := UserAgent.__init__ user_id g d in
      acc ← add acc (User a);
      create_user_agents users_data g' acc
    end
  end.

Definition create_countermeasure_agents (cs : countermeasure_settings)
    (acc : list agent) : result (list agent) :=
  acc ←
    (if default false (key_node_enabled cs) then
       a ← CountermeasureAgent.__init__ "cm_key_node" "key_node"
             (Some (CountermeasureAgent.Settings
                      (Some (default (1 # 10)%Q (key_node_threshold cs)))
                      (Some (default (100000 # 1)%Q (key_node_followers cs)))
                      None None));
       add acc (Countermeasure a)
     else Ok acc);
  acc ←
    (if default false (fact_check_enabled cs) then
       a ← CountermeasureAgent.__init__ "cm_fact_check" "fact_check"
             (Some (CountermeasureAgent.Settings
                      (Some (default (50 # 1)%Q (fact_check_threshold cs)))
                      None
                      (Some (default 30 (fact_check_delay cs)))
                      None));
       add_agent acc (Countermeasure a)
     else Ok acc);
  if default false (early_warning_enabled cs) then
    a ← CountermeasureAgent.__init__ "cm_early_warning" "early_warning"
          (Some (CountermeasureAgent.Settings
                   (Some (default (10 # 1)%Q (early_warning_threshold cs)))
                   None None
                   (Some (default (3 # 10)%Q (early_warning_coverage cs)))));
    add_agent acc (Countermeasure a)
  else Ok acc.

Definition _create_agents (users_data : list UserAgent.user_data)
    (cs : countermeasure_settings) (g : Random)
    : result (list agent * Random) :=
  '(users, g') ← create_user_agents users_data g [];
  all ← create_countermeasure_agents cs users;
  Ok (all, g').

(** *** _schedule_tweets *)

(** Order on the [time_since_start] column; NaN sorts last. *)
Definition time_le (a b : option Q) : bool :=
  match a, b with
  | Some x, Some y => Qle_bool x y
  | _, None => true
  | None, Some _ => false
  end.

Definition time_order (a b : tweet) : Prop :=
  time_le (tw_time_since_start a) (tw_time_since_start b) = true.

#[global] Instance time_order_dec a b : Decision (time_order a b) :=
  bool_eq_dec _ _.

(** [sort_values('time_since_start')], as a merge sort.  The library
    leaves the order of rows with equal keys open; the properties below
    use only that the result is ordered and is a rearrangement of the
    rows. *)
Definition sort_values (l : list tweet) : list tweet :=
  merge_sort time_order l.

(** Python's [int] on a number: truncation toward zero. *)
Definition py_int (q : Q) : Z := Z.quot (Qnum q) (Z.pos (Qden q)).

Definition time_step (time_unit : Z) (s : Q) : Z :=
  py_int (s / inject_Z time_unit)%Q.

Fixpoint schedule_rows (time_unit : Z) (sorted_tweets : list tweet)
    (scheduled : list (Z * tweet)) : result (list (Z * tweet)) :=
  match sorted_tweets with
  | [] => Ok scheduled
  | tweet :: sorted_tweets =>
    match tw_time_since_start tweet with
    | None => Raise (ValueError "cannot convert float NaN to integer")
    | Some s =>
      schedule_rows time_unit sorted_tweets
        (scheduled ++ [(time_step time_unit s, tweet)])
    end
  end.

Definition _schedule_tweets (time_unit : Z) (tweets_timeline : DataFrame)
    (scheduled : list (Z * tweet)) : result (list (Z * tweet)) :=
  if bool_decide ("time_since_start" ∉ columns tweets_timeline)
  then Ok scheduled
  else schedule_rows time_unit (sort_values (records tweets_timeline))
         scheduled.

(** *** step *)

Definition time_eqb (a b : option Q) : bool :=
  match a, b with
  | Some x, Some y => Qeq_bool x y
  | None, None => true
  | _, _ => false
  end.

(** Equality of two rows, then of two schedule entries, as [==] decides
    it. *)
Definition tweet_eqb (a b : tweet) : bool :=
  bool_decide (tw_misinfo_id a = tw_misinfo_id b)
  && bool_decide (tw_user_id a = tw_user_id b)
  && bool_decide (tw_is_source a = tw_is_source b)
  && time_eqb (tw_time_since_start a) (tw_time_since_start b).

Definition entry_eqb (a b : Z * tweet) : bool :=
  bool_decide (a.1 = b.1) && tweet_eqb a.2 b.2.

(** [list.remove(x)]: drops the first element equal to [x], raises
    [ValueError] when there is none. *)
Fixpoint list_remove (x : Z * tweet) (l : list (Z * tweet))
    : result (list (Z * tweet)) :=
  match l with
  | [] => Raise (ValueError "list.remove(x): x not in list")
  | y :: l' =>
    if entry_eqb y x then Ok l'
    else l'' ← list_remove x l'; Ok (y :: l'')
  end.

(** The dispatch loop of [step], over the copy [scheduled_tweets[:]]. *)
Fixpoint dispatch_due (current_step : Z) (snapshot : list (Z * tweet))
    (scheduled : list (Z * tweet)) (calls : list model_call)
    : result (list (Z * tweet) * list model_call) :=
  match snapshot with
  | [] => Ok (scheduled, calls)
  | (step, tweet) :: snapshot =>
    if bool_decide (step ≤ current_step)%Z then
      scheduled' ← list_remove (step, tweet) scheduled;
      dispatch_due current_step snapshot scheduled'
        (calls ++ [process_tweet tweet])
    else dispatch_due current_step snapshot scheduled calls
  end.

(** The loop [for agent in self.agents: agent.step()]. *)
Fixpoint step_agents (step_count : option Z) (todo : list agent)
    (done : list agent) (calls : list model_call)
    : result (list agent * list model_call) :=
  match todo with
  | [] => Ok (done, calls)
  | User u :: todo =>
    step_agents step_count todo (done ++ [User (UserAgent.step u)]) calls
  | Countermeasure c :: todo =>
    '(c', out) ← CountermeasureAgent.step c step_count;
    step_agents step_count todo (done ++ [Countermeasure c'])
      (calls ++ out)
  end.

(** [step].  The data collector only reads the model and is left out. *)
Definition step (self : t) : result t :=
  let current_step := num_steps self in
  '(scheduled, calls1) ←
    dispatch_due current_step (scheduled_tweets self)
      (scheduled_tweets self) (calls self);
  '(agents', calls2) ← step_agents (step_count self) (agents self) [] calls1;
  Ok (Build (time_unit self) (num_steps self) (step_count self)
        scheduled agents' calls2).

(** *** _setup_network and _create_synthetic_network *)

(** A directed graph, as the simulation uses [nx.DiGraph]: its nodes and its
    edges. *)
Record DiGraph : Type := Graph {
  nodes : gset string;
  edges : gset (string * string)
}.

Definition add_node (G : DiGraph) (u : string) : DiGraph :=
  Graph ({[u]} ∪ nodes G) (edges G).

(** [add_edge] also adds the two end points to the nodes. *)
Definition add_edge (G : DiGraph) (u v : string) : DiGraph :=
  Graph ({[u; v]} ∪ nodes G) ({[(u, v)]} ∪ edges G).

Fixpoint add_user_nodes (users_data : list UserAgent.user_data) (G : DiGraph)
    : DiGraph :=
  match users_data with
  | [] => G
  | user_data :: users_data =>
    match truthy_id (UserAgent.ud_user_id user_data) with
    | Some user_id => add_user_nodes users_data (add_node G user_id)
    | None => add_user_nodes users_data G
    end
  end.

(** The loop over [network_edges], pairs (follower, followed). *)
Fixpoint add_network_edges (network_edges : list (string * string))
    (G : DiGraph) : DiGraph :=
  match network_edges with
  | [] => G
  | (follower, followed) :: network_edges =>
    if decide (follower ∈ nodes G ∧ followed ∈ nodes G)
    then add_network_edges network_edges (add_edge G followed follower)
    else add_network_edges network_edges G
  end.

(** The inner loop of [_create_synthetic_network], over the targets. *)
Fixpoint link_targets (source_id : string) (follow_prob : R)
    (targets : list UserAgent.user_data) (G : DiGraph) (g : Random)
    : DiGraph * Random :=
  match targets with
  | [] => (G, g)
  | target_user :: targets =>
    match truthy_id (UserAgent.ud_user_id target_user) with
    | Some target_id =>
      if decide (target_id ≠ source_id) then
        let '(u, g') := random g in
        if Rlt_dec u follow_prob
        then link_targets source_id follow_prob targets
               (add_edge G source_id target_id) g'
        else link_targets source_id follow_prob targets G g'
      else link_targets source_id follow_prob targets G g
    | None => link_targets source_id follow_prob targets G g
    end
  end.

(** The outer loop, over the sources; [users_data] is the whole list. *)
Fixpoint link_sources (users_data sources : list UserAgent.user_data)
    (G : DiGraph) (g : Random) : DiGraph * Random :=
  match sources with
  | [] => (G, g)
  | source_user :: sources =>
    match truthy_id (UserAgent.ud_user_id source_user) with
    | None => link_sources users_data sources G g
    | Some source_id =>
      let influence := default 0 (UserAgent.ud_followers_count source_user) in
      if bool_decide (influence > 1000)%Z then
        let follow_prob := Rmin (1 / 10) (IZR influence / 1000000) in
        let '(G', g') := link_targets source_id follow_prob users_data G g in
        link_sources users_data sources G' g'
      else link_sources users_data sources G g
    end
  end.

Definition _create_synthetic_network (users_data : list UserAgent.user_data)
    (G : DiGraph) (g : Random) : DiGraph * Random :=
  link_sources users_data users_data G g.

(** [_setup_network], without the grid wrapper. *)
Definition _setup_network (users_data : list UserAgent.user_data)
    (network_edges : list (string * string)) (g : Random)
    : DiGraph * Random :=
  let G := add_user_nodes users_data (Graph ∅ ∅) in
  match network_edges with
  | [] => _create_synthetic_network users_data G g
  | _ :: _ => (add_network_edges network_edges G, g)
  end.

(** *** The Active_Users reporter *)



(** *** __init__ *)

(** The part of [preprocessed_data] the constructor uses here. *)
Record preprocessed_data : Type := Preprocessed {
  users : list UserAgent.user_data;
  tweets_timeline : DataFrame
}.

(** The empty settings dict. *)
Definition no_settings : countermeasure_settings :=
  CmSettings None None None None None None None None None.

(** [__init__], without the graph and the data collector.  [g] is the
    shared generator as [_setup_network] leaves it; [num_steps] and
    [step_count] stand for what the framework base class provides. *)
Definition __init__ (d : preprocessed_data)
    (settings : option countermeasure_settings)
    (num_steps : Z) (step_count : option Z) (g : Random)
    : result (t * Random) :=
  let time_unit := 60 in
  let scheduled_tweets := [] in
  '(agents, g') ← _create_agents (users d) (default no_settings settings) g;
  scheduled_tweets ←
    _schedule_tweets time_unit (tweets_timeline d) scheduled_tweets;
  Ok (Build time_unit num_steps step_count scheduled_tweets agents [], g').

End MisinformationModel.

(** * Reachable states and reference formulas *)

(** The states a user agent can be in: built by the constructor, then
    changed only by its two methods.  A call that raises produces no new
    state. *)
Inductive user_reachable : UserAgent.t → Prop :=
| user_reach_init uid g d :
    user_reachable (UserAgent.__init__ uid g d).1
| user_reach_receive a tw cm g a' g' cs :
    user_reachable a →
    UserAgent.receive_tweet a tw cm g = Ok (a', g', cs) →
    user_reachable a'
| user_reach_step a :
    user_reachable a → user_reachable (UserAgent.step a).

(** The follower factor and the retweet probability as the design document
    writes them. *)
Definition follower_factor (follower_count : Z) : R :=
  if bool_decide (follower_count > 0)%Z
  then (1 - Rmin (1 / 2) (ln (1 + IZR follower_count) / 30))%R
  else 1%R.

Definition retweet_probability_formula (verified : bool) (follower_count : Z)
    : R :=
  (1 / 10 * (if verified then 8 / 10 else 1) * follower_factor follower_count)%R.

(** The effective sharing probability of an agent for an item. *)
Definition effective_probability (a : UserAgent.t) (m : string) : R :=
  if decide (m ∈ UserAgent.received_countermeasures a)
  then (UserAgent.retweet_probability a
        * (1 - UserAgent.susceptibility_to_countermeasures a))%R
  else UserAgent.retweet_probability a.

(** The draw the next call of [random] returns, and the generator after it. *)
Definition next_draw (g : Random) : R := draws g (cursor g).
Definition advanced (g : Random) : Random := mkRandom (draws g) (S (cursor g)).

(** ** Histories of a countermeasure agent *)

(** The keys of the pending entries that are due at [current_step], in the
    order of the items. *)
Definition due_keys (current_step : Z) (items : list (string * Z))
    : list string :=
  (filter (λ x : string * Z, (current_step >= x.2)%Z) items).*1.

(** What the two loops of [step] leave in the dictionaries. *)
Definition insert_all (c : Z) (ks : list string) (A : gmap string Z)
    : gmap string Z :=
  foldl (λ A m, <[m := c]> A) A ks.

Definition delete_all (ks : list string) (P : gmap string Z) : gmap string Z :=
  foldl (λ P m, delete m P) P ks.

(** One call on a countermeasure agent: [activate_countermeasure] with an
    item and the caller's tick, or [step] with the model's [step_count]
    attribute as it is at that moment. *)
Inductive cm_op : Type :=
| Activate (misinfo_id : string) (current_step : Z)
| Tick (step_count : option Z).

Definition cm_apply (a : CountermeasureAgent.t) (op : cm_op)
    : result (CountermeasureAgent.t * list model_call) :=
  match op with
  | Activate m t => CountermeasureAgent.activate_countermeasure a m t
  | Tick sc => CountermeasureAgent.step a sc
  end.

(** A sequence of calls, with all the calls it makes on the model. *)
Fixpoint cm_run (a : CountermeasureAgent.t) (ops : list cm_op)
    : result (CountermeasureAgent.t * list model_call) :=
  match ops with
  | [] => Ok (a, [])
  | op :: ops =>
    '(a1, cs1) ← cm_apply a op;
    '(a2, cs2) ← cm_run a1 ops;
    Ok (a2, cs1 ++ cs2)
  end.

(** The items for which a list of calls asks a deployment, in call order. *)
Fixpoint deployed (cs : list model_call) : list string :=
  match cs with
  | [] => []
  | deploy_countermeasure _ m :: cs => m :: deployed cs
  | _ :: cs => deployed cs
  end.

(** A sequence of calls in which [activate_countermeasure] is never called
    for an item that is active at that moment. *)
Fixpoint cm_guarded (a : CountermeasureAgent.t) (ops : list cm_op) : bool :=
  match ops with
  | [] => true
  | op :: ops =>
    match op with
    | Activate m _ =>
      bool_decide (CountermeasureAgent.active_countermeasures a !! m = None)
    | Tick _ => true
    end
    && match cm_apply a op with
       | Ok (a1, _) => cm_guarded a1 ops
       | Raise _ => true
       end
  end.

(** A history that stays clear of item [m] before tick [due]: every [step]
    in it sees a tick below [due], and every activation is for another
    item. *)
Definition cm_early (m : string) (due : Z) (ops : list cm_op) : Prop :=
  Forall (λ op, match op with
                | Tick sc => (default 0 sc < due)%Z
                | Activate m' _ => m' ≠ m
                end) ops.

(** What the constructor guarantees and every call keeps: a fact-check agent
    has a delay, and only a fact-check agent has pending items. *)
Definition cm_wf (a : CountermeasureAgent.t) : Prop :=
  (CountermeasureAgent.type a = "fact_check"
   → is_Some (CountermeasureAgent.delay a))
  ∧ (CountermeasureAgent.type a ≠ "fact_check"
     → CountermeasureAgent.pending_countermeasures a = ∅).

(** The three countermeasure types the constructor knows. *)
Definition known_types : list string :=
  ["key_node"; "fact_check"; "early_warning"].

(** ** Runs of the engine *)



(** A schedule entry is due at tick [c]. *)
Definition due (c : Z) (e : Z * tweet) : Prop := (e.1 ≤ c)%Z.

#[global] Instance due_dec c e : Decision (due c e) := Z_le_dec e.1 c.

(** A row with a number in its time column, and a schedule entry whose
    tick is the quantised time of its row. *)
Definition has_time (tw : tweet) : Prop := is_Some (tw_time_since_start tw).

#[global] Instance has_time_dec tw : Decision (has_time tw) := _.

Definition entry_ok (tu : Z) (e : Z * tweet) : Prop :=
  ∃ s, tw_time_since_start e.2 = Some s
       ∧ e.1 = MisinformationModel.time_step tu s.

(** ** Evolution of a user agent *)

(** [user_evolves a a']: [a'] is [a] after some successful deliveries and
    steps. *)
Inductive user_evolves : UserAgent.t → UserAgent.t → Prop :=
| user_evolves_refl a : user_evolves a a
| user_evolves_receive a a1 tw cm g a' g' cs :
    user_evolves a a1 →
    UserAgent.receive_tweet a1 tw cm g = Ok (a', g', cs) →
    user_evolves a a'
| user_evolves_step a a1 :
    user_evolves a a1 → user_evolves a (UserAgent.step a1).

(** The items for which a history calls [activate_countermeasure], in call
    order. *)
Fixpoint activated (ops : list cm_op) : list string :=
  match ops with
  | [] => []
  | Activate m _ :: ops => m :: activated ops
  | Tick _ :: ops => activated ops
  end.

(** The identities of the user records that have one, in order. *)
Definition user_ids (users_data : list UserAgent.user_data) : list string :=
  omap (λ d, MisinformationModel.truthy_id (UserAgent.ud_user_id d)) users_data.

(** A user record with identity [uid] and more than 1000 followers. *)
Definition influential (users_data : list UserAgent.user_data) (uid : string)
    : Prop :=
  ∃ d, d ∈ users_data
       ∧ MisinformationModel.truthy_id (UserAgent.ud_user_id d) = Some uid
       ∧ (default 0 (UserAgent.ud_followers_count d) > 1000)%Z.


(** Row [a] has a time strictly before the time of row [b]. *)
Definition time_lt (a b : tweet) : Prop :=
  ∃ x y, tw_time_since_start a = Some x ∧ tw_time_since_start b = Some y
         ∧ (x < y)%Q.


(** Sample data: a generator whose every draw is 0, a verified user without
    followers, and a source tweet. *)
Definition g_low : Random := mkRandom (λ _, 0%R) 0.

Definition alice_data : UserAgent.user_data :=
  UserAgent.UserData (Some "alice") None None (Some true) (Some 0) None None.

Definition alice : UserAgent.t := (UserAgent.__init__ "alice" g_low alice_data).1.

Definition tweet_m1 : tweet := Tweet (Some "m1") (Some "alice") true (Some 0%Q).

(** [alice] after she received and shared item m1. *)
Definition alice_shared : UserAgent.t :=
  UserAgent.set_retweeted_misinfo ({[ "m1" ]} ∪ ∅)
    (UserAgent.set_received_misinfo ({[ "m1" ]} ∪ ∅) alice).

(** A fact-check agent with threshold 2 and delay 5, as the constructor
    builds it. *)
Definition fact_checker : CountermeasureAgent.t :=
  CountermeasureAgent.Build "cm_fact_check" "fact_check"
    (Some (2 # 1)%Q) None (Some 5) None ∅ ∅.

(** A timeline of three rows, at 75, 0 and 59 seconds, and the model the
    constructor builds from it without users and countermeasures. *)
Definition tweet_m1_late : tweet :=
  Tweet (Some "m1") (Some "bob") false (Some (75 # 1)%Q).
Definition tweet_m1_soon : tweet :=
  Tweet (Some "m1") (Some "carol") false (Some (59 # 1)%Q).






(** * Properties *)

(** ** UserAgent *)

Section user_agent.
Import UserAgent.

Lemma receive_tweet_raises a tw cm g :
  tw_misinfo_id tw = None →
  receive_tweet a tw cm g = Raise (KeyError "misinfo_id").
Proof. intros H. unfold receive_tweet. by rewrite H. Qed.

(** A misinformation delivery, case by case. *)
Lemma receive_misinfo_cases a tw m g :
  tw_misinfo_id tw = Some m →
  let a1 := set_received_misinfo ({[m]} ∪ received_misinfo a) a in
  (m ∈ retweeted_misinfo a ∧
     receive_tweet a tw false g = Ok (a1, g, []))
  ∨ ((m ∉ retweeted_misinfo a) ∧
     (next_draw g < effective_probability a m)%R ∧
     receive_tweet a tw false g =
       Ok (set_retweeted_misinfo ({[m]} ∪ retweeted_misinfo a) a1,
           advanced g, [user_retweet (unique_id a) tw]))
  ∨ ((m ∉ retweeted_misinfo a) ∧
     ¬ (next_draw g < effective_probability a m)%R ∧
     receive_tweet a tw false g = Ok (a1, advanced g, [])).
Proof.
  intros Hm a1.
  unfold receive_tweet, _consider_retweeting. rewrite Hm. cbn beta iota.
  fold a1. change (retweeted_misinfo a1) with (retweeted_misinfo a).
  change (received_countermeasures a1) with (received_countermeasures a).
  change (retweet_probability a1) with (retweet_probability a).
  change (susceptibility_to_countermeasures a1)
    with (susceptibility_to_countermeasures a).
  change (unique_id a1) with (unique_id a).
  destruct (decide (m ∈ retweeted_misinfo a)) as [Hin|Hin]; [by left|].
  right. unfold random. fold (next_draw g). fold (advanced g).
  fold (effective_probability a m).
  destruct (Rlt_dec (next_draw g) (effective_probability a m)); [left|right];
    done.
Qed.

(** A countermeasure delivery, case by case. *)
Lemma receive_countermeasure_cases a tw m g :
  tw_misinfo_id tw = Some m →
  let a1 :=
    set_received_countermeasures ({[m]} ∪ received_countermeasures a) a in
  let retract :=
    m ∈ retweeted_misinfo a ∧
    (next_draw g < susceptibility_to_countermeasures a * (3 / 10))%R in
  (retract ∧
     receive_tweet a tw true g =
       Ok (set_retweeted_misinfo (retweeted_misinfo a ∖ {[m]}) a1,
           advanced g, [record_retraction (unique_id a) m]))
  ∨ (¬ retract ∧
     ∃ g', receive_tweet a tw true g = Ok (a1, g', []) ∧
           g' = if decide (m ∈ retweeted_misinfo a) then advanced g else g).
Proof.
  intros Hm a1 retract. subst retract.
  unfold receive_tweet. rewrite Hm. cbn beta iota zeta.
  fold a1. change (retweeted_misinfo a1) with (retweeted_misinfo a).
  change (susceptibility_to_countermeasures a1)
    with (susceptibility_to_countermeasures a).
  change (unique_id a1) with (unique_id a).
  destruct (decide (m ∈ retweeted_misinfo a)) as [Hin|Hin].
  - unfold random. fold (next_draw g). fold (advanced g).
    destruct (Rlt_dec _ _) as [Hlt|Hlt]; [left|right].
    + done.
    + split; [tauto | by eexists].
  - right. split; [tauto | by eexists].
Qed.

(** Every successful call is one of the cases above. *)
Ltac receive_cases H m Hm :=
  let E := fresh "E" in
  match type of H with
  | receive_tweet ?a ?tw ?cm ?g = Ok _ =>
    destruct (tw_misinfo_id tw) as [m|] eqn:Hm;
    [ destruct cm;
      [ destruct (receive_countermeasure_cases a tw m g Hm)
          as [[[? ?] E]|[? (? & E & ?)]]
      | destruct (receive_misinfo_cases a tw m g Hm)
          as [[? E]|[(? & ? & E)|(? & ? & E)]] ];
      rewrite E in H; injection H; clear H; intros; subst
    | rewrite (receive_tweet_raises a tw cm g Hm) in H; discriminate H ]
  end.

Lemma init_sets_empty uid g d :
  received_misinfo (__init__ uid g d).1 = ∅
  ∧ retweeted_misinfo (__init__ uid g d).1 = ∅
  ∧ received_countermeasures (__init__ uid g d).1 = ∅.
Proof.
  unfold __init__, _calculate_susceptibility.
  by destruct (default false (ud_verified d)).
Qed.

Lemma receive_tweet_keeps_subset a tw cm g a' g' cs :
  retweeted_misinfo a ⊆ received_misinfo a →
  receive_tweet a tw cm g = Ok (a', g', cs) →
  retweeted_misinfo a' ⊆ received_misinfo a'.
Proof.
  intros Hsub H. receive_cases H m Hm; simpl; set_solver.
Qed.

Lemma alice_shares :
  receive_tweet alice tweet_m1 false g_low
  = Ok (alice_shared, advanced g_low, [user_retweet "alice" tweet_m1]).
Proof.
  destruct (receive_misinfo_cases alice tweet_m1 "m1" g_low eq_refl)
    as [[Hin _]|[(_ & _ & E)|(_ & Hn & _)]].
  - exfalso. revert Hin. cbn. set_solver.
  - exact E.
  - exfalso. apply Hn. unfold next_draw, effective_probability. cbn.
    rewrite decide_False by set_solver.
    unfold _calculate_retweet_probability. cbn.
    rewrite bool_decide_eq_false_2 by lia. lra.
Qed.

(** C1.  In every state a user agent can reach (after the constructor and
    after every call of [receive_tweet], whatever the flag and the draws),
    the retweeted items are among the received items. *)
Theorem retweeted_subset_received (a : UserAgent.t) :
  user_reachable a → retweeted_misinfo a ⊆ received_misinfo a.
Proof.
  induction 1 as [uid g d|a tw cm g a' g' cs _ IH H|a _ IH].
  - destruct (init_sets_empty uid g d) as (-> & -> & _). done.
  - by eapply receive_tweet_keeps_subset.
  - exact IH.
Qed.

Lemma retweeted_subset_received_witness :
  retweeted_misinfo alice_shared ⊆ received_misinfo alice_shared.
Proof.
  apply (retweeted_subset_received alice_shared).
  eapply user_reach_receive; [apply user_reach_init | exact alice_shares].
Defined.

(** C3.  A misinformation delivery adds the item to [received_misinfo].
    If the item was already retweeted nothing else changes: no draw, no
    call on the model.  Otherwise one draw is taken, and the item is added
    to [retweeted_misinfo], with a [user_retweet] call on the model, exactly
    when the draw is below the effective probability: the retweet
    probability, scaled by one minus the susceptibility exactly when a
    countermeasure for the item was received. *)
Theorem receive_misinformation (a : UserAgent.t) (tw : tweet) (m : string)
    (g : Random) :
  tw_misinfo_id tw = Some m →
  ∃ a' g' cs,
    receive_tweet a tw false g = Ok (a', g', cs)
    ∧ received_misinfo a' = {[m]} ∪ received_misinfo a
    ∧ (m ∈ retweeted_misinfo a →
         a' = set_received_misinfo ({[m]} ∪ received_misinfo a) a
         ∧ g' = g ∧ cs = [])
    ∧ (m ∉ retweeted_misinfo a →
         let p :=
           if decide (m ∈ received_countermeasures a)
           then (retweet_probability a
                 * (1 - susceptibility_to_countermeasures a))%R
           else retweet_probability a in
         g' = advanced g
         ∧ ((next_draw g < p)%R →
              retweeted_misinfo a' = {[m]} ∪ retweeted_misinfo a
              ∧ cs = [user_retweet (unique_id a) tw])
         ∧ (¬ (next_draw g < p)%R →
              retweeted_misinfo a' = retweeted_misinfo a ∧ cs = [])).
Proof.
  intros Hm.
  destruct (receive_misinfo_cases a tw m g Hm)
    as [[Hin E]|[(Hin & Hp & E)|(Hin & Hp & E)]];
    rewrite E; eexists _, _, _; (split; [reflexivity|]);
    (split; [reflexivity|]); (split; [intros Hin'|intros Hin' p]);
    try done; fold (effective_probability a m) in p; subst p;
    (split; [reflexivity|]); split; intros Hp'; done.
Qed.

Lemma receive_misinformation_witness :
  ∃ a' g' cs,
    receive_tweet alice tweet_m1 false g_low = Ok (a', g', cs)
    ∧ received_misinfo a' = {[ "m1" ]} ∪ received_misinfo alice
    ∧ retweeted_misinfo a' = {[ "m1" ]} ∪ retweeted_misinfo alice
    ∧ cs = [user_retweet "alice" tweet_m1].
Proof.
  destruct (receive_misinformation alice tweet_m1 "m1" g_low eq_refl)
    as (a' & g' & cs & E & Hr & _ & Hnew).
  exists a', g', cs. split; [exact E|]. split; [exact Hr|].
  rewrite alice_shares in E. injection E as <- <- <-.
  split; reflexivity.
Defined.

(** C4.  A countermeasure delivery adds the item to
    [received_countermeasures]; the item leaves [retweeted_misinfo], with a
    [record_retraction] call on the model, exactly when it was retweeted
    and the draw is below 0.3 times the susceptibility.  No call of
    [receive_tweet] removes anything else from [retweeted_misinfo], and
    [step] changes nothing: an item leaves the set only if it was in it,
    through a countermeasure delivery for that item. *)
Theorem receive_countermeasure (a : UserAgent.t) (tw : tweet) (m : string)
    (cm : bool) (g : Random) :
  tw_misinfo_id tw = Some m →
  ∃ a' g' cs,
    receive_tweet a tw cm g = Ok (a', g', cs)
    ∧ (cm = true →
         let retract :=
           m ∈ retweeted_misinfo a
           ∧ (next_draw g < susceptibility_to_countermeasures a * (3 / 10))%R
         in
         received_countermeasures a' = {[m]} ∪ received_countermeasures a
         ∧ (retract →
              retweeted_misinfo a' = retweeted_misinfo a ∖ {[m]}
              ∧ cs = [record_retraction (unique_id a) m])
         ∧ (¬ retract →
              retweeted_misinfo a' = retweeted_misinfo a ∧ cs = []))
    ∧ (∀ x, x ∈ retweeted_misinfo a → x ∉ retweeted_misinfo a' →
         cm = true ∧ x = m
         ∧ (next_draw g < susceptibility_to_countermeasures a * (3 / 10))%R
         ∧ cs = [record_retraction (unique_id a) m])
    ∧ UserAgent.step a = a.
Proof.
  intros Hm. destruct cm.
  - destruct (receive_countermeasure_cases a tw m g Hm)
      as [[[Hin Hlt] E]|[Hno (g' & E & _)]];
      rewrite E; eexists _, _, _; (split; [reflexivity|]).
    + split; [|split; [|reflexivity]].
      * intros _ retract. split; [reflexivity|]. split; [done|].
        intros Hn. destruct Hn. by split.
      * intros x Hx Hx'. cbn in Hx'.
        destruct (decide (x = m)) as [->|Hne]; [done|set_solver].
    + split; [|split; [|reflexivity]].
      * intros _ retract. split; [reflexivity|]. split; [|done].
        intros Hr. by destruct Hno.
      * intros x Hx Hx'. by destruct Hx'.
  - destruct (receive_misinfo_cases a tw m g Hm)
      as [[Hin E]|[(Hin & Hp & E)|(Hin & Hp & E)]];
      rewrite E; eexists _, _, _; (split; [reflexivity|]);
      (split; [intros [=]|]); (split; [|reflexivity]);
      intros x Hx Hx'; cbn in Hx'; set_solver.
Qed.

Lemma receive_countermeasure_witness :
  ∃ a' g' cs,
    receive_tweet alice_shared tweet_m1 true g_low = Ok (a', g', cs)
    ∧ received_countermeasures a' = {[ "m1" ]}
    ∧ retweeted_misinfo a' = ∅
    ∧ cs = [record_retraction "alice" "m1"].
Proof.
  destruct (receive_countermeasure alice_shared tweet_m1 "m1" true g_low
              eq_refl) as (a' & g' & cs & E & Hcm & _).
  destruct (Hcm eq_refl) as (Hrc & Hyes & _).
  exists a', g', cs. split; [exact E|].
  split; [rewrite Hrc; cbn; set_solver|].
  destruct Hyes as [-> ->].
  - split; [cbn; set_solver|]. unfold next_draw. cbn. lra.
  - split; [cbn; set_solver|reflexivity].
Defined.

(** C10.  Frame of [receive_tweet]: a countermeasure delivery leaves
    [received_misinfo] as it was, a misinformation delivery leaves
    [received_countermeasures] as it was, and no delivery changes the two
    behaviour parameters or any static attribute. *)
Theorem receive_tweet_frame (a : UserAgent.t) (tw : tweet) (m : string)
    (cm : bool) (g : Random) :
  tw_misinfo_id tw = Some m →
  ∃ a' g' cs,
    receive_tweet a tw cm g = Ok (a', g', cs)
    ∧ (cm = true → received_misinfo a' = received_misinfo a)
    ∧ (cm = false → received_countermeasures a' = received_countermeasures a)
    ∧ retweet_probability a' = retweet_probability a
    ∧ susceptibility_to_countermeasures a'
      = susceptibility_to_countermeasures a
    ∧ unique_id a' = unique_id a
    ∧ user_id a' = user_id a
    ∧ screen_name a' = screen_name a
    ∧ name a' = name a
    ∧ verified a' = verified a
    ∧ followers_count a' = followers_count a
    ∧ location a' = location a
    ∧ description a' = description a.
Proof.
  intros Hm. destruct cm.
  - destruct (receive_countermeasure_cases a tw m g Hm)
      as [[_ E]|[_ (g' & E & _)]];
      rewrite E; eexists _, _, _; (split; [reflexivity|]);
      repeat split; done.
  - destruct (receive_misinfo_cases a tw m g Hm)
      as [[_ E]|[(_ & _ & E)|(_ & _ & E)]];
      rewrite E; eexists _, _, _; (split; [reflexivity|]);
      repeat split; done.
Qed.

Lemma receive_tweet_frame_witness :
  ∃ a' g' cs,
    receive_tweet alice tweet_m1 false g_low = Ok (a', g', cs)
    ∧ received_countermeasures a' = received_countermeasures alice
    ∧ retweet_probability a' = retweet_probability alice
    ∧ followers_count a' = followers_count alice.
Proof.
  destruct (receive_tweet_frame alice tweet_m1 "m1" false g_low eq_refl)
    as (a' & g' & cs & E & _ & Hrc & Hrp & _ & _ & _ & _ & _ & _ & Hfc & _).
  exists a', g', cs. auto.
Defined.

(** *** The retweet probability *)

Lemma calculate_matches_formula v fc :
  _calculate_retweet_probability v fc = retweet_probability_formula v fc.
Proof.
  unfold _calculate_retweet_probability, retweet_probability_formula,
    follower_factor.
  rewrite plus_IZR. replace (5 / 10)%R with (1 / 2)%R by lra.
  destruct v, (bool_decide (fc > 0)%Z); lra.
Qed.

Lemma ln_succ_pos fc : (fc > 0)%Z → (0 < ln (1 + IZR fc))%R.
Proof.
  intros Hfc. rewrite <- ln_1. apply ln_increasing; [lra|].
  assert (1 <= IZR fc)%R by (apply IZR_le; lia). lra.
Qed.

Lemma follower_factor_bounds fc :
  (1 / 2 <= follower_factor fc <= 1)%R.
Proof.
  unfold follower_factor. case_bool_decide as Hfc; [|lra].
  pose proof (ln_succ_pos fc Hfc).
  unfold Rmin. destruct (Rle_dec _ _); lra.
Qed.

Lemma formula_bounds v fc :
  (0 <= retweet_probability_formula v fc <= 1)%R.
Proof.
  unfold retweet_probability_formula.
  pose proof (follower_factor_bounds fc). destruct v; nra.
Qed.

Lemma ln_11_small : (ln 11 / 30 < 1 / 2)%R.
Proof.
  assert (ln 11 < 15)%R; [|lra].
  rewrite <- (ln_exp 15). apply ln_increasing; [lra|].
  pose proof (exp_ineq1_le 15). lra.
Qed.

Lemma formula_two_million_vs_ten :
  (retweet_probability_formula false 2000000
   < retweet_probability_formula false 10)%R.
Proof.
  unfold retweet_probability_formula, follower_factor.
  rewrite !bool_decide_eq_true_2 by lia.
  replace (1 + 10)%R with 11%R by lra.
  replace (1 + 2000000)%R with 2000001%R by lra.
  pose proof ln_11_small.
  assert (ln 11 < ln 2000001)%R by (apply ln_increasing; lra).
  unfold Rmin. repeat destruct (Rle_dec _ _); lra.
Qed.

Lemma reachable_probability a :
  user_reachable a →
  retweet_probability a
  = _calculate_retweet_probability (verified a) (followers_count a).
Proof.
  induction 1 as [uid g d|a tw cm g a' g' cs _ IH H|a _ IH].
  - unfold __init__, _calculate_susceptibility.
    by destruct (default false (ud_verified d)).
  - receive_cases H m Hm; exact IH.
  - exact IH.
Qed.

(** C7.  The retweet probability of every user agent is
    0.1 x (0.8 if verified, else 1) x follower factor, the follower factor
    being 1 - min(0.5, ln(1 + followers) / 30) for a positive follower
    count and 1 otherwise; the factor lies in [0.5, 1], the probability in
    [0, 1], and an unverified user with 2,000,000 followers has a strictly
    smaller probability than an unverified user with 10 followers. *)
Theorem retweet_probability_value (a : UserAgent.t) :
  user_reachable a →
  retweet_probability a
  = (1 / 10 * (if verified a then 8 / 10 else 1)
     * follower_factor (followers_count a))%R
  ∧ follower_factor (followers_count a)
    = (if bool_decide (followers_count a > 0)%Z
       then 1 - Rmin (1 / 2) (ln (1 + IZR (followers_count a)) / 30)
       else 1)%R
  ∧ (1 / 2 <= follower_factor (followers_count a) <= 1)%R
  ∧ (0 <= retweet_probability a <= 1)%R
  ∧ (∀ b, user_reachable b →
       verified a = false → followers_count a = 2000000 →
       verified b = false → followers_count b = 10 →
       (retweet_probability a < retweet_probability b)%R).
Proof.
  intros Ha. pose proof (reachable_probability a Ha) as Hrp.
  rewrite calculate_matches_formula in Hrp.
  split; [exact Hrp|]. split; [reflexivity|].
  split; [apply follower_factor_bounds|].
  split; [rewrite Hrp; apply formula_bounds|].
  intros b Hb Hva Hfa Hvb Hfb.
  rewrite Hrp, (reachable_probability b Hb), calculate_matches_formula.
  rewrite Hva, Hfa, Hvb, Hfb. apply formula_two_million_vs_ten.
Qed.

Lemma retweet_probability_value_witness :
  retweet_probability alice_shared = (1 / 10 * (8 / 10) * 1)%R
  ∧ (0 <= retweet_probability alice_shared <= 1)%R.
Proof.
  assert (user_reachable alice_shared) as Hr.
  { eapply user_reach_receive; [apply user_reach_init | exact alice_shares]. }
  destruct (retweet_probability_value alice_shared Hr)
    as (Hv & _ & _ & Hb & _).
  split; [|exact Hb]. rewrite Hv. unfold follower_factor. cbn.
  rewrite bool_decide_eq_false_2 by lia. reflexivity.
Defined.

End user_agent.

(** ** CountermeasureAgent *)

Section countermeasure_agent.
Import CountermeasureAgent.

Implicit Types (m : string) (c : Z) (ks : list string)
  (P A : gmap string Z) (items : list (string * Z)).

Lemma insert_all_lookup c ks A m :
  insert_all c ks A !! m = if decide (m ∈ ks) then Some c else A !! m.
Proof.
  revert A. induction ks as [|k ks IH]; intros A; [done|].
  change (insert_all c (k :: ks) A) with (insert_all c ks (<[k:=c]> A)).
  rewrite IH. destruct (decide (m = k)) as [->|Hne].
  - rewrite lookup_insert_eq, (decide_True (P := k ∈ k :: ks)) by left.
    by case_decide.
  - rewrite lookup_insert_ne by done.
    destruct (decide (m ∈ ks)).
    + by rewrite decide_True by (by right).
    + by rewrite decide_False by (by apply not_elem_of_cons).
Qed.

Lemma delete_all_lookup ks P m :
  delete_all ks P !! m = if decide (m ∈ ks) then None else P !! m.
Proof.
  revert P. induction ks as [|k ks IH]; intros P; [done|].
  change (delete_all (k :: ks) P) with (delete_all ks (delete k P)).
  rewrite IH. destruct (decide (m = k)) as [->|Hne].
  - rewrite lookup_delete_eq, (decide_True (P := k ∈ k :: ks)) by left.
    by case_decide.
  - rewrite lookup_delete_ne by done.
    destruct (decide (m ∈ ks)).
    + by rewrite decide_True by (by right).
    + by rewrite decide_False by (by apply not_elem_of_cons).
Qed.

Lemma collect_due_spec c items ks A :
  collect_due c items ks A
  = (ks ++ due_keys c items, insert_all c (due_keys c items) A).
Proof.
  revert ks A. induction items as [|[k a] items IH]; intros ks A.
  - cbn. by rewrite app_nil_r.
  - cbn [collect_due]. unfold due_keys. rewrite filter_cons. cbn [snd].
    case_bool_decide as Hdue.
    + rewrite decide_True by done. rewrite IH. cbn.
      unfold insert_all. by rewrite <- app_assoc.
    + rewrite decide_False by done. by rewrite IH.
Qed.

Lemma elem_of_due_keys c P m :
  m ∈ due_keys c (map_to_list P) ↔ ∃ a, P !! m = Some a ∧ (a ≤ c)%Z.
Proof.
  unfold due_keys. rewrite list_elem_of_fmap. split.
  - intros ([k a] & -> & Hin). apply list_elem_of_filter in Hin as [Hd Hin].
    apply elem_of_map_to_list in Hin. exists a. cbn in *. split; [done|lia].
  - intros (a & Hl & Hle). exists (m, a). split; [done|].
    apply list_elem_of_filter. split; [cbn; lia|].
    by apply elem_of_map_to_list.
Qed.

Lemma NoDup_due_keys c P : NoDup (due_keys c (map_to_list P)).
Proof.
  unfold due_keys. eapply sublist_NoDup; [apply (NoDup_fst_map_to_list P)|].
  apply fmap_sublist, sublist_filter.
Qed.

Lemma deploy_due_spec uid ks P cs :
  NoDup ks → (∀ k, k ∈ ks → is_Some (P !! k)) →
  deploy_due uid ks P cs
  = Ok (delete_all ks P, cs ++ map (deploy_countermeasure uid) ks).
Proof.
  revert P cs. induction ks as [|k ks IH]; intros P cs Hnd Hin.
  - cbn. by rewrite app_nil_r.
  - cbn [deploy_due]. destruct (Hin k) as [a ->]; [set_solver|].
    apply NoDup_cons in Hnd as [Hk Hnd].
    rewrite IH; [by rewrite <- app_assoc|done|].
    intros k' Hk'. rewrite lookup_delete_ne by set_solver.
    apply Hin. set_solver.
Qed.

(** [step] never raises, and this is what it returns. *)
Lemma step_spec (self : CountermeasureAgent.t) (sc : option Z) :
  let c := default 0 sc in
  let ks := due_keys c (map_to_list (pending_countermeasures self)) in
  step self sc
  = Ok (set_pending_countermeasures
          (delete_all ks (pending_countermeasures self))
          (set_active_countermeasures
             (insert_all c ks (active_countermeasures self)) self),
        map (deploy_countermeasure (unique_id self)) ks).
Proof.
  intros c ks. unfold step. fold c. rewrite collect_due_spec. cbn [app].
  fold ks. rewrite deploy_due_spec; [done|apply NoDup_due_keys|].
  intros k Hk. apply elem_of_due_keys in Hk as (a & -> & _). by eexists.
Qed.

Lemma deployed_map uid ks :
  deployed (map (deploy_countermeasure uid) ks) = ks.
Proof. induction ks as [|k ks IH]; [done|]. cbn. by rewrite IH. Qed.

Lemma deployed_app cs1 cs2 : deployed (cs1 ++ cs2) = deployed cs1 ++ deployed cs2.
Proof.
  induction cs1 as [|[] cs1 IH]; cbn; [done|done|done| |done].
  by rewrite IH.
Qed.

Lemma activate_fact_check self m t d :
  type self = "fact_check" → delay self = Some d →
  activate_countermeasure self m t
  = Ok (set_pending_countermeasures
          (<[m := t + d]> (pending_countermeasures self)) self, []).
Proof.
  intros Hty Hd. unfold activate_countermeasure.
  by rewrite decide_True, Hd by done.
Qed.

(** A [step] that sees tick [c], at one item. *)
Lemma step_at self sc m :
  let c := default 0 sc in
  ∃ self' cs,
    step self sc = Ok (self', cs)
    ∧ type self' = type self ∧ delay self' = delay self
    ∧ unique_id self' = unique_id self
    ∧ NoDup (deployed cs)
    ∧ (∀ k, k ∈ deployed cs ↔
            ∃ a, pending_countermeasures self !! k = Some a ∧ (a ≤ c)%Z)
    ∧ cs = map (deploy_countermeasure (unique_id self)) (deployed cs)
    ∧ pending_countermeasures self' !! m
      = (if decide (m ∈ deployed cs) then None
         else pending_countermeasures self !! m)
    ∧ active_countermeasures self' !! m
      = (if decide (m ∈ deployed cs) then Some c
         else active_countermeasures self !! m).
Proof.
  intros c. rewrite step_spec. fold c. eexists _, _.
  split; [reflexivity|]. rewrite !deployed_map. cbn.
  repeat split; try done.
  - apply NoDup_due_keys.
  - by apply elem_of_due_keys.
  - by apply elem_of_due_keys.
  - apply delete_all_lookup.
  - apply insert_all_lookup.
Qed.

Lemma early_history self ops m due a0 :
  type self = "fact_check" → is_Some (delay self) →
  cm_early m due ops →
  pending_countermeasures self !! m = Some due →
  active_countermeasures self !! m = a0 →
  ∃ self' cs,
    cm_run self ops = Ok (self', cs)
    ∧ type self' = "fact_check" ∧ delay self' = delay self
    ∧ unique_id self' = unique_id self
    ∧ pending_countermeasures self' !! m = Some due
    ∧ active_countermeasures self' !! m = a0
    ∧ m ∉ deployed cs.
Proof.
  intros Hty Hd Hops. revert self Hty Hd.
  induction Hops as [|op ops Hop _ IH]; intros self Hty [d Hd] Hp Ha.
  - eexists _, _. split; [reflexivity|]. cbn. repeat split; try done.
    apply not_elem_of_nil.
  - destruct op as [m' t'|sc]; cbn [cm_run cm_apply].
    + rewrite (activate_fact_check self m' t' d Hty Hd). cbn.
      edestruct IH as (self' & cs & -> & ? & Hd' & ? & ? & ? & ?);
        [ | | | | eexists _, _; split; [reflexivity|]; repeat split; eauto ].
      * done.
      * by eexists.
      * cbn. by rewrite lookup_insert_ne.
      * done.
    + destruct (step_at self sc m)
        as (s1 & cs1 & E & Hty1 & Hd1 & Hu1 & _ & Hin & _ & Hp1 & Ha1).
      assert (m ∉ deployed cs1) as Hnot.
      { intros (a & Ha' & Hle)%Hin. rewrite Hp in Ha'.
        injection Ha' as <-. lia. }
      rewrite decide_False in Hp1, Ha1 by done.
      rewrite E. cbn.
      edestruct (IH s1) as (self' & cs & -> & ? & Hd' & Hu' & ? & ? & ?);
        [congruence|rewrite Hd1; by eexists|congruence|congruence|].
      eexists _, _. split; [reflexivity|].
      repeat split; try congruence.
      rewrite deployed_app. intros [?|?]%elem_of_app; done.
Qed.

(** C2.  For a fact-check agent with delay [d], [activate_countermeasure]
    at tick [t] schedules the item for tick [t + d] and deploys nothing.
    Whatever happens next to other items, as long as every [step] sees a
    tick below [t + d] the item stays pending, inactive and undeployed; the
    first [step] that sees a tick [c] with [t + d <= c] removes it from
    the pending dict, records it as active at [c] and asks its
    deployment. *)
Theorem fact_check_activation (self : CountermeasureAgent.t) (m : string)
    (t d : Z) :
  type self = "fact_check" → delay self = Some d →
  ∃ self1,
    activate_countermeasure self m t = Ok (self1, [])
    ∧ pending_countermeasures self1 !! m = Some (t + d)
    ∧ active_countermeasures self1 = active_countermeasures self
    ∧ ∀ ops, cm_early m (t + d) ops →
        ∃ self2 cs,
          cm_run self1 ops = Ok (self2, cs)
          ∧ pending_countermeasures self2 !! m = Some (t + d)
          ∧ active_countermeasures self2 !! m
            = active_countermeasures self !! m
          ∧ (m ∉ deployed cs)
          ∧ ∀ sc, (t + d ≤ default 0 sc)%Z →
              ∃ self3 cs3,
                step self2 sc = Ok (self3, cs3)
                ∧ pending_countermeasures self3 !! m = None
                ∧ active_countermeasures self3 !! m = Some (default 0 sc)
                ∧ deploy_countermeasure (unique_id self) m ∈ cs3.
Proof.
  intros Hty Hd. eexists.
  split; [by apply activate_fact_check|].
  split; [cbn; apply lookup_insert_eq|]. split; [reflexivity|].
  intros ops Hops.
  edestruct (early_history
               (set_pending_countermeasures
                  (<[m := t + d]> (pending_countermeasures self)) self)
               ops m (t + d))
    as (self2 & cs & E & Hty2 & Hd2 & Hu2 & Hp2 & Ha2 & Hnot);
    [done|by eexists|done|cbn; apply lookup_insert_eq|reflexivity|].
  exists self2, cs. split; [exact E|]. split; [exact Hp2|].
  split; [exact Ha2|]. split; [exact Hnot|].
  intros sc Hsc.
  destruct (step_at self2 sc m)
    as (s3 & cs3 & E3 & _ & _ & _ & _ & Hin & Hcs & Hp3 & Ha3).
  assert (m ∈ deployed cs3) as Hm by (apply Hin; eauto).
  rewrite decide_True in Hp3, Ha3 by done.
  exists s3, cs3. split; [exact E3|]. split; [exact Hp3|].
  split; [exact Ha3|].
  rewrite Hcs, Hu2. cbn. apply list_elem_of_fmap. eauto.
Qed.

Lemma fact_check_activation_witness :
  ∃ s1 s2 cs s3 cs3,
    activate_countermeasure fact_checker "m1" 4 = Ok (s1, [])
    ∧ pending_countermeasures s1 !! "m1" = Some 9
    ∧ cm_run s1 [Tick (Some 5); Tick (Some 8)] = Ok (s2, cs)
    ∧ pending_countermeasures s2 !! "m1" = Some 9
    ∧ active_countermeasures s2 !! "m1" = None
    ∧ ("m1" ∉ deployed cs)
    ∧ step s2 (Some 9) = Ok (s3, cs3)
    ∧ pending_countermeasures s3 !! "m1" = None
    ∧ active_countermeasures s3 !! "m1" = Some 9
    ∧ deploy_countermeasure "cm_fact_check" "m1" ∈ cs3.
Proof.
  destruct (fact_check_activation fact_checker "m1" 4 5 eq_refl eq_refl)
    as (s1 & E1 & Hp1 & _ & Hlater).
  destruct (Hlater [Tick (Some 5); Tick (Some 8)])
    as (s2 & cs & E2 & Hp2 & Ha2 & Hnot & Hfire).
  { repeat constructor; cbn; lia. }
  destruct (Hfire (Some 9)) as (s3 & cs3 & E3 & Hp3 & Ha3 & Hd3).
  { cbn. lia. }
  exists s1, s2, cs, s3, cs3. repeat split; assumption.
Defined.

(** *** Repeated activation *)

Lemma init_ok uid ty st :
  ∃ a, __init__ uid ty st = Ok a
       ∧ cm_wf a ∧ unique_id a = uid ∧ type a = ty
       ∧ active_countermeasures a = ∅ ∧ pending_countermeasures a = ∅.
Proof.
  unfold __init__, cm_wf. repeat case_decide; eexists;
    (split; [reflexivity|]); cbn; repeat split; try done;
    intros; by (congruence || eexists).
Qed.

(** One guarded call keeps the two dictionaries apart, and deploys only
    items that were not active, each once. *)
Lemma guarded_call a op :
  cm_wf a →
  dom (pending_countermeasures a) ## dom (active_countermeasures a) →
  cm_guarded a [op] = true →
  ∃ a1 cs,
    cm_apply a op = Ok (a1, cs)
    ∧ cm_wf a1
    ∧ dom (pending_countermeasures a1) ## dom (active_countermeasures a1)
    ∧ NoDup (deployed cs)
    ∧ (∀ k, k ∈ deployed cs → k ∉ dom (active_countermeasures a))
    ∧ dom (active_countermeasures a1)
      = dom (active_countermeasures a) ∪ list_to_set (deployed cs).
Proof.
  intros [Hwf1 Hwf2] Hdis Hg. destruct op as [m t|sc]; cbn [cm_apply].
  - cbn in Hg. rewrite andb_true_iff, bool_decide_eq_true in Hg.
    destruct Hg as [Hm _]. apply not_elem_of_dom in Hm.
    unfold activate_countermeasure. case_decide as Hty.
    + destruct (Hwf1 Hty) as [d Hd]. rewrite Hd.
      eexists _, _. split; [reflexivity|].
      cbn. split; [split; [exact Hwf1|done]|]. rewrite dom_insert_L.
      repeat split; [set_solver|constructor|set_solver|set_solver].
    + eexists _, _. split; [reflexivity|]. cbn. split; [done|].
      rewrite dom_insert_L, (Hwf2 Hty), dom_empty_L.
      repeat split; [set_solver|apply NoDup_singleton|set_solver|set_solver].
  - pose proof (step_spec a sc) as E. cbn zeta in E.
    set (c := default 0 sc) in *.
    set (ks := due_keys c (map_to_list (pending_countermeasures a))) in *.
    rewrite E. eexists _, _. split; [reflexivity|].
    rewrite deployed_map. cbn.
    assert (∀ k, k ∈ ks → k ∈ dom (pending_countermeasures a)) as Hks.
    { intros k (x & Hx & _)%elem_of_due_keys. apply elem_of_dom. eauto. }
    assert (∀ k, k ∈ dom (delete_all ks (pending_countermeasures a))
                 ↔ k ∈ dom (pending_countermeasures a) ∧ k ∉ ks) as Hp.
    { intros k. rewrite !elem_of_dom, delete_all_lookup.
      case_decide; [split; [by intros [? [=]]|tauto]|tauto]. }
    assert (∀ k, k ∈ dom (insert_all c ks (active_countermeasures a))
                 ↔ k ∈ ks ∨ k ∈ dom (active_countermeasures a)) as Ha.
    { intros k. rewrite !elem_of_dom, insert_all_lookup.
      case_decide; [split; [tauto|by eexists]|tauto]. }
    split; [split; [done|]|]; [|split; [|split; [apply NoDup_due_keys|split]]].
    + intros Hty. subst ks. rewrite (Hwf2 Hty), map_to_list_empty. done.
    + intros k Hk1%Hp Hk2%Ha. set_solver.
    + intros k Hk%Hks. set_solver.
    + apply set_eq. intros k. rewrite Ha. set_solver.
Qed.

Lemma guarded_head a op ops :
  cm_guarded a (op :: ops) = true → cm_guarded a [op] = true.
Proof.
  cbn. rewrite !andb_true_iff. intros [Hop _]. split; [done|].
  by destruct (cm_apply a op) as [[? ?]|].
Qed.

Lemma guarded_run a ops :
  cm_wf a →
  dom (pending_countermeasures a) ## dom (active_countermeasures a) →
  cm_guarded a ops = true →
  ∃ a' cs,
    cm_run a ops = Ok (a', cs)
    ∧ cm_wf a'
    ∧ dom (pending_countermeasures a') ## dom (active_countermeasures a')
    ∧ NoDup (deployed cs)
    ∧ (∀ k, k ∈ deployed cs → k ∉ dom (active_countermeasures a))
    ∧ dom (active_countermeasures a')
      = dom (active_countermeasures a) ∪ list_to_set (deployed cs).
Proof.
  revert a. induction ops as [|op ops IH]; intros a Hwf Hdis Hg.
  - eexists _, _. split; [reflexivity|]. cbn.
    split; [done|]. split; [done|]. split; [constructor|].
    split; set_solver.
  - destruct (guarded_call a op Hwf Hdis (guarded_head a op ops Hg))
      as (a1 & cs1 & E1 & Hwf1 & Hdis1 & Hnd1 & Hnew1 & Hdom1).
    cbn in Hg. rewrite andb_true_iff, E1 in Hg. destruct Hg as [_ Hg].
    destruct (IH a1 Hwf1 Hdis1 Hg)
      as (a2 & cs2 & E2 & Hwf2 & Hdis2 & Hnd2 & Hnew2 & Hdom2).
    cbn [cm_run]. rewrite E1. cbn. rewrite E2. cbn.
    eexists _, _. split; [reflexivity|]. rewrite deployed_app.
    split; [done|]. split; [done|]. split; [|split].
    + apply NoDup_app. split; [done|]. split; [|done].
      intros k Hk1 Hk2. apply (Hnew2 k Hk2). rewrite Hdom1. set_solver.
    + intros k [Hk|Hk]%elem_of_app; [by apply Hnew1|].
      intros Hin. apply (Hnew2 k Hk). rewrite Hdom1. set_solver.
    + rewrite Hdom2, Hdom1, list_to_set_app_L. set_solver.
Qed.

Lemma cm_run_app a ops1 ops2 :
  cm_run a (ops1 ++ ops2)
  = '(a1, cs1) ← cm_run a ops1;
    '(a2, cs2) ← cm_run a1 ops2;
    Ok (a2, cs1 ++ cs2).
Proof.
  revert a. induction ops1 as [|op ops1 IH]; intros a.
  - cbn. by destruct (cm_run a ops2) as [[? ?]|].
  - cbn [cm_run app]. destruct (cm_apply a op) as [[a1 cs1]|e]; [|done].
    cbn. rewrite IH. destruct (cm_run a1 ops1) as [[a2 cs2]|e]; [|done].
    cbn. destruct (cm_run a2 ops2) as [[a3 cs3]|e]; [|done].
    cbn. by rewrite app_assoc.
Qed.

Lemma guarded_app a ops1 ops2 a1 cs1 :
  cm_guarded a (ops1 ++ ops2) = true →
  cm_run a ops1 = Ok (a1, cs1) →
  cm_guarded a ops1 = true ∧ cm_guarded a1 ops2 = true.
Proof.
  revert a cs1. induction ops1 as [|op ops1 IH]; intros a cs1 Hg E.
  - cbn in E. by injection E as <- <-.
  - cbn in Hg, E |- *. rewrite andb_true_iff in Hg |- *.
    destruct Hg as [Hop Hg].
    destruct (cm_apply a op) as [[a' cs']|e]; [|done]. cbn in E.
    destruct (cm_run a' ops1) as [[a'' cs'']|e] eqn:E'; [|done].
    cbn in E. injection E as <- <-.
    destruct (IH a' cs'' Hg E') as [? ?]. done.
Qed.

(** C5, as the code has it.  Take an agent built by the constructor and a
    history of [activate_countermeasure] and [step] calls in which
    [activate_countermeasure] is never called for an item that is active
    at that moment.  Then the history runs to its end without an
    exception; at its end no item is a key of both dictionaries; an item
    that was active at some point of the history is still active and is
    not pending at the end; and no item is deployed twice. *)
Theorem guarded_activation_once (uid ty : string)
    (st : option CountermeasureAgent.settings)
    (a0 : CountermeasureAgent.t) (ops1 ops2 : list cm_op) :
  __init__ uid ty st = Ok a0 →
  cm_guarded a0 (ops1 ++ ops2) = true →
  ∃ a1 cs1 a2 cs2,
    cm_run a0 ops1 = Ok (a1, cs1)
    ∧ cm_run a0 (ops1 ++ ops2) = Ok (a2, cs1 ++ cs2)
    ∧ dom (pending_countermeasures a2) ## dom (active_countermeasures a2)
    ∧ (∀ m, m ∈ dom (active_countermeasures a1) →
            m ∈ dom (active_countermeasures a2)
            ∧ m ∉ dom (pending_countermeasures a2))
    ∧ NoDup (deployed (cs1 ++ cs2)).
Proof.
  intros Hinit Hg.
  destruct (init_ok uid ty st) as (a & E & Hwf & _ & _ & Ha & Hp).
  rewrite Hinit in E. injection E as <-.
  assert (dom (pending_countermeasures a0)
          ## dom (active_countermeasures a0)) as Hdis.
  { rewrite Ha, Hp. set_solver. }
  destruct (guarded_run a0 (ops1 ++ ops2) Hwf Hdis Hg)
    as (a2 & cs & E & _ & Hdis2 & Hnd & _ & _).
  rewrite cm_run_app in E.
  destruct (cm_run a0 ops1) as [[a1 cs1]|e] eqn:E1; [|done].
  destruct (guarded_app a0 ops1 ops2 a1 cs1 Hg E1) as [Hg1 Hg2].
  destruct (guarded_run a0 ops1 Hwf Hdis Hg1)
    as (a1' & cs1' & E1' & Hwf1 & Hdis1 & _).
  rewrite E1 in E1'. injection E1' as <- <-.
  destruct (guarded_run a1 ops2 Hwf1 Hdis1 Hg2)
    as (a2' & cs2 & E2 & _ & _ & _ & _ & Hdom2).
  cbn in E. rewrite E2 in E. cbn in E. injection E as <- <-.
  exists a1, cs1, a2', cs2. rewrite cm_run_app, E1. cbn. rewrite E2. cbn.
  split; [done|]. split; [done|]. split; [done|]. split; [|done].
  intros m Hm. assert (m ∈ dom (active_countermeasures a2')) as Hm2.
  { rewrite Hdom2. set_solver. }
  split; [done|]. intros Hmp. by apply (Hdis2 m).
Qed.

Lemma fact_checker_built :
  __init__ "cm_fact_check" "fact_check"
    (Some (Settings (Some (2 # 1)%Q) None (Some 5) None))
  = Ok fact_checker.
Proof. reflexivity. Qed.

Lemma guarded_activation_once_witness :
  ∃ a1 cs1 a2 cs2,
    cm_run fact_checker [Activate "m1" 4; Tick (Some 9)] = Ok (a1, cs1)
    ∧ cm_run fact_checker
        ([Activate "m1" 4; Tick (Some 9)] ++ [Tick (Some 10)])
      = Ok (a2, cs1 ++ cs2)
    ∧ dom (pending_countermeasures a2) ## dom (active_countermeasures a2)
    ∧ NoDup (deployed (cs1 ++ cs2)).
Proof.
  destruct (guarded_activation_once "cm_fact_check" "fact_check"
              (Some (Settings (Some (2 # 1)%Q) None (Some 5) None))
              fact_checker [Activate "m1" 4; Tick (Some 9)]
              [Tick (Some 10)] fact_checker_built)
    as (a1 & cs1 & a2 & cs2 & E1 & E2 & Hdis & _ & Hnd).
  { vm_compute. reflexivity. }
  exists a1, cs1, a2, cs2. auto.
Defined.

(** C5 as stated fails.  The fact-check agent with delay 5 is triggered
    for m1 at tick 4 and activates it at tick 9; a second trigger for m1
    at tick 9 makes m1 pending again while it is active, and the step at
    tick 14 deploys m1 a second time. *)
Lemma repeated_activation_counterexample :
  ∃ a cs a' cs',
    cm_run fact_checker [Activate "m1" 4; Tick (Some 9); Activate "m1" 9]
    = Ok (a, cs)
    ∧ pending_countermeasures a !! "m1" = Some 14
    ∧ active_countermeasures a !! "m1" = Some 9
    ∧ cm_run fact_checker
        [Activate "m1" 4; Tick (Some 9); Activate "m1" 9; Tick (Some 14)]
      = Ok (a', cs')
    ∧ deployed cs' = ["m1"; "m1"].
Proof.
  eexists _, _, _, _.
  split; [vm_compute; reflexivity|].
  split; [vm_compute; reflexivity|].
  split; [vm_compute; reflexivity|].
  split; vm_compute; reflexivity.
Qed.

(** *** Unknown countermeasure types *)

(** C9, as the code has it.  The constructor does not reject a type
    outside the three known ones: it returns an agent of that type with
    none of the four parameters set and with both dictionaries empty. *)
Theorem unknown_type_builds_bare_agent (uid ty : string)
    (st : option CountermeasureAgent.settings) :
  ty ∉ known_types →
  __init__ uid ty st = Ok (Build uid ty None None None None ∅ ∅).
Proof.
  intros Hty. unfold __init__. unfold known_types in Hty.
  rewrite !decide_False; [done|set_solver..].
Qed.

Lemma unknown_type_builds_bare_agent_witness :
  __init__ "cm_x" "shadow_ban" None
  = Ok (Build "cm_x" "shadow_ban" None None None None ∅ ∅).
Proof.
  apply (unknown_type_builds_bare_agent "cm_x" "shadow_ban" None).
  unfold known_types. intros Hin.
  repeat (apply elem_of_cons in Hin as [[=]|Hin]).
  by apply not_elem_of_nil in Hin.
Defined.

(** C9 as stated fails: constructing an agent of the unknown type
    shadow_ban raises nothing; it returns an agent without an activation
    threshold. *)
Lemma unknown_type_counterexample :
  ∃ a, __init__ "cm_x" "shadow_ban" None = Ok a
       ∧ ("shadow_ban" ∉ known_types)
       ∧ activation_threshold a = None.
Proof.
  eexists. split; [reflexivity|]. split; [|reflexivity].
  unfold known_types. intros Hin.
  repeat (apply elem_of_cons in Hin as [[=]|Hin]).
  by apply not_elem_of_nil in Hin.
Qed.

End countermeasure_agent.

(** ** MisinformationModel *)

Section misinformation_model.
Import MisinformationModel.

Implicit Types (c : Z) (e x : Z * tweet) (l pre snap : list (Z * tweet))
  (cs : list model_call).

(** *** The dispatch loop *)













(** *** Quantisation of timestamps *)

Lemma py_int_nonneg (q : Q) : (0 <= q)%Q → py_int q = Qfloor q.
Proof.
  destruct q as [n d]. unfold Qle, py_int. cbn. intros Hn.
  apply Z.quot_div_nonneg; lia.
Qed.

Lemma py_int_nonpos (q : Q) : (q <= 0)%Q → py_int q = Qceiling q.
Proof.
  destruct q as [n d]. unfold Qle, py_int, Qceiling. cbn. intros Hn.
  rewrite <- (Z.opp_involutive n) at 1.
  rewrite Z.quot_opp_l by lia. f_equal.
  apply Z.quot_div_nonneg; lia.
Qed.

Lemma py_int_mono (q q' : Q) : (q <= q')%Q → (py_int q ≤ py_int q')%Z.
Proof.
  intros Hle.
  destruct (Qlt_le_dec q 0) as [Hq|Hq], (Qlt_le_dec q' 0) as [Hq'|Hq'].
  - rewrite !py_int_nonpos by by apply Qlt_le_weak.
    by apply Qceiling_resp_le.
  - rewrite (py_int_nonpos q) by by apply Qlt_le_weak.
    rewrite (py_int_nonneg q') by done.
    transitivity 0%Z.
    + change 0%Z with (Qceiling 0). apply Qceiling_resp_le.
      by apply Qlt_le_weak.
    + change 0%Z with (Qfloor 0). by apply Qfloor_resp_le.
  - exfalso. apply (Qlt_irrefl 0).
    eapply Qle_lt_trans; [exact Hq|]. eapply Qle_lt_trans; eauto.
  - rewrite !py_int_nonneg by done. by apply Qfloor_resp_le.
Qed.

Lemma time_step_mono (tu : Z) (s s' : Q) :
  (0 ≤ tu)%Z → (s <= s')%Q → (time_step tu s ≤ time_step tu s')%Z.
Proof.
  intros Htu Hle. unfold time_step. apply py_int_mono.
  unfold Qdiv. apply Qmult_le_compat_r; [done|].
  apply Qinv_le_0_compat. change 0%Q with (inject_Z 0).
  by rewrite <- Zle_Qle.
Qed.

Lemma time_step_floor (s : Q) :
  (0 <= s)%Q → time_step 60 s = Qfloor (s / 60).
Proof.
  intros Hs. unfold time_step. apply py_int_nonneg.
  unfold Qdiv. apply Qmult_le_0_compat; [done|]. by compute.
Qed.


(** *** Building the schedule *)

Lemma schedule_rows_spec tu (rows : list tweet) (acc : list (Z * tweet)) :
  Forall has_time rows →
  ∃ es,
    schedule_rows tu rows acc = Ok (acc ++ es)
    ∧ es.*2 = rows ∧ Forall (entry_ok tu) es.
Proof.
  intros Hrows. revert acc.
  induction Hrows as [|tw rows [s Hs] _ IH]; intros acc.
  - exists []. by rewrite app_nil_r.
  - cbn. rewrite Hs.
    destruct (IH (acc ++ [(time_step tu s, tw)])) as (es & -> & Hes & Hok).
    exists ((time_step tu s, tw) :: es). rewrite <- app_assoc.
    split; [done|]. split; [cbn; by rewrite Hes|].
    constructor; [by exists s|done].
Qed.

#[local] Instance time_order_trans : Transitive time_order.
Proof.
  intros a b c. unfold time_order, time_le.
  destruct (tw_time_since_start a), (tw_time_since_start b),
    (tw_time_since_start c); try done.
  rewrite !Qle_bool_iff. apply Qle_trans.
Qed.

#[local] Instance time_order_total : Total time_order.
Proof.
  intros a b. unfold time_order, time_le.
  destruct (tw_time_since_start a) as [x|], (tw_time_since_start b) as [y|];
    try by (left + right).
  rewrite !Qle_bool_iff.
  destruct (Qlt_le_dec x y); [left; by apply Qlt_le_weak|by right].
Qed.

Lemma sort_values_sorted (rows : list tweet) :
  StronglySorted time_order (sort_values rows)
  ∧ sort_values rows ≡ₚ rows.
Proof.
  split; [apply StronglySorted_merge_sort; apply _|].
  apply merge_sort_Permutation.
Qed.

Lemma entries_sorted tu (es : list (Z * tweet)) :
  (0 ≤ tu)%Z → Forall (entry_ok tu) es →
  StronglySorted time_order es.*2 → StronglySorted Z.le es.*1.
Proof.
  intros Htu Hok. induction Hok as [|e es [s [Hs He]] Hok IH]; intros Hs'.
  - constructor.
  - cbn in Hs' |- *. apply StronglySorted_inv in Hs' as [Hrest Hhd].
    constructor; [by apply IH|].
    rewrite Forall_forall in Hhd. rewrite Forall_forall in Hok.
    rewrite Forall_forall.
    intros k (e' & -> & He')%list_elem_of_fmap.
    destruct (Hok e' He') as (s' & Hs'' & ->). rewrite He.
    apply time_step_mono; [done|].
    assert (time_order e.2 e'.2) as Ho
      by (apply Hhd, list_elem_of_fmap; eauto).
    unfold time_order in Ho. rewrite Hs, Hs'' in Ho.
    by apply Qle_bool_iff.
Qed.











End misinformation_model.

(** * Further properties *)

(** ** UserAgent: susceptibility, the generator, histories *)

Section user_agent_more.
Import UserAgent.

(** X1.  The constructor gives a verified user the susceptibility 0.7 and
    takes no draw for it; for an unverified user it takes exactly one draw
    [u] and gives 0.3 + 0.4 u.  Either way, for a draw in [0, 1), the
    susceptibility lies in the closed range [0.3, 0.7]. *)
Theorem susceptibility_range (uid : string) (g : Random) (d : user_data) :
  (0 <= next_draw g < 1)%R →
  let a := (__init__ uid g d).1 in
  let g' := (__init__ uid g d).2 in
  (3 / 10 <= susceptibility_to_countermeasures a <= 7 / 10)%R
  ∧ (verified a = true →
       susceptibility_to_countermeasures a = (7 / 10)%R ∧ g' = g)
  ∧ (verified a = false →
       susceptibility_to_countermeasures a
       = (3 / 10 + 4 / 10 * next_draw g)%R
       ∧ g' = advanced g).
Proof.
  intros Hu. unfold __init__, _calculate_susceptibility, random.
  fold (next_draw g). fold (advanced g).
  destruct (default false (ud_verified d)); cbn.
  - split; [lra|]. split; [done|]. intros [=].
  - split; [lra|]. split; [intros [=]|]. intros _.
    split; done.
Qed.

Lemma susceptibility_range_witness :
  susceptibility_to_countermeasures alice = (7 / 10)%R
  ∧ (__init__ "alice" g_low alice_data).2 = g_low.
Proof.
  destruct (susceptibility_range "alice" g_low alice_data) as (_ & Hv & _).
  - unfold next_draw. cbn. lra.
  - apply Hv. reflexivity.
Defined.

(** X2.  A delivery that carries an item takes at most one draw from the
    shared generator and never alters the stream: a misinformation delivery
    draws exactly when the item is not yet retweeted, a countermeasure
    delivery exactly when it is. *)
Theorem receive_tweet_draws (a : UserAgent.t) (tw : tweet) (m : string)
    (cm : bool) (g : Random) :
  tw_misinfo_id tw = Some m →
  ∃ a' g' cs,
    receive_tweet a tw cm g = Ok (a', g', cs)
    ∧ draws g' = draws g
    ∧ g' = (if decide (cm = true ↔ m ∈ retweeted_misinfo a)
            then advanced g else g).
Proof.
  intros Hm. destruct cm.
  - destruct (receive_countermeasure_cases a tw m g Hm)
      as [[[Hin _] E]|[_ (g' & E & Hg)]]; rewrite E; eexists _, _, _;
      (split; [reflexivity|]).
    + split; [done|]. by rewrite decide_True by done.
    + subst g'. destruct (decide (m ∈ retweeted_misinfo a)) as [Hin|Hin].
      * split; [done|]. by rewrite decide_True by done.
      * split; [done|]. rewrite decide_False; [done|]. intros [H _]. by apply Hin, H.
  - destruct (receive_misinfo_cases a tw m g Hm)
      as [[Hin E]|[(Hin & _ & E)|(Hin & _ & E)]]; rewrite E;
      eexists _, _, _; (split; [reflexivity|]); (split; [done|]).
    + rewrite decide_False; [done|]. intros [_ H]. by specialize (H Hin).
    + rewrite decide_True; [done|]. split; [done|]. intros ?; done.
    + rewrite decide_True; [done|]. split; [done|]. intros ?; done.
Qed.

Lemma receive_tweet_draws_witness :
  ∃ a' g' cs,
    receive_tweet alice_shared tweet_m1 false g_low = Ok (a', g', cs)
    ∧ g' = g_low.
Proof.
  destruct (receive_tweet_draws alice_shared tweet_m1 "m1" false g_low eq_refl)
    as (a' & g' & cs & E & _ & Hg).
  exists a', g', cs. split; [exact E|]. rewrite Hg.
  rewrite decide_False; [reflexivity|].
  intros [_ H]. discriminate H. cbn. set_solver.
Defined.

(** Every successful call is one of the cases of the two case lemmas. *)
Ltac receive_split H m Hm :=
  let E := fresh "E" in
  match type of H with
  | receive_tweet ?a ?tw ?cm ?g = Ok _ =>
    destruct (tw_misinfo_id tw) as [m|] eqn:Hm;
    [ destruct cm;
      [ destruct (receive_countermeasure_cases a tw m g Hm)
          as [[[? ?] E]|[? (? & E & ?)]]
      | destruct (receive_misinfo_cases a tw m g Hm)
          as [[? E]|[(? & ? & E)|(? & ? & E)]] ];
      rewrite E in H; injection H; clear H; intros; subst
    | rewrite (receive_tweet_raises a tw cm g Hm) in H; discriminate H ]
  end.

Lemma evolves_params a a' :
  user_evolves a a' →
  retweet_probability a' = retweet_probability a
  ∧ susceptibility_to_countermeasures a'
    = susceptibility_to_countermeasures a.
Proof.
  induction 1 as [a|a a1 tw cm g a' g' cs _ IH H|a a1 _ IH].
  - done.
  - destruct IH as (H3 & H4).
    receive_split H m Hm; cbn; repeat split; done.
  - done.
Qed.

(** X4.  Over any history of deliveries and steps the two sets of received
    items only grow, and the retweet probability, the susceptibility, the
    identity, the verified flag and the followers count stay as they
    were. *)
Theorem received_sets_grow (a a' : UserAgent.t) :
  user_evolves a a' →
  received_misinfo a ⊆ received_misinfo a'
  ∧ received_countermeasures a ⊆ received_countermeasures a'
  ∧ retweet_probability a' = retweet_probability a
  ∧ susceptibility_to_countermeasures a'
    = susceptibility_to_countermeasures a
  ∧ unique_id a' = unique_id a
  ∧ verified a' = verified a
  ∧ followers_count a' = followers_count a.
Proof.
  induction 1 as [a|a a1 tw cm g a' g' cs _ IH H|a a1 _ IH].
  - done.
  - destruct IH as (H1 & H2 & H3 & H4 & H5 & H6 & H7).
    receive_split H m Hm; cbn; repeat split; try done; set_solver.
  - done.
Qed.

Lemma received_sets_grow_witness :
  received_misinfo alice ⊆ received_misinfo alice_shared
  ∧ retweet_probability alice_shared = retweet_probability alice.
Proof.
  destruct (received_sets_grow alice alice_shared) as (H1 & _ & H3 & _).
  - eapply user_evolves_receive; [apply user_evolves_refl|exact alice_shares].
  - split; [exact H1|exact H3].
Defined.

Lemma init_susceptibility_bounds uid g d :
  (0 <= next_draw g < 1)%R →
  (3 / 10 <= susceptibility_to_countermeasures (__init__ uid g d).1
   <= 7 / 10)%R.
Proof.
  intros Hu. unfold __init__, _calculate_susceptibility, random.
  fold (next_draw g). destruct (default false (ud_verified d)); cbn; lra.
Qed.

Lemma init_probability_small uid g d :
  (0 <= retweet_probability (__init__ uid g d).1 <= 1 / 10)%R.
Proof.
  assert (retweet_probability (__init__ uid g d).1
          = retweet_probability_formula (default false (ud_verified d))
              (default 0%Z (ud_followers_count d))) as ->.
  { rewrite <- calculate_matches_formula.
    unfold __init__, _calculate_susceptibility.
    by destruct (default false (ud_verified d)). }
  unfold retweet_probability_formula.
  pose proof (follower_factor_bounds (default 0%Z (ud_followers_count d))).
  destruct (default false (ud_verified d)); nra.
Qed.

(** X5.  For a user built with a draw in [0, 1), at any later point of its
    history: the retweet probability is at most 0.1; a delivery makes the
    user retweet an item only on a draw below 0.1, and below 0.07 when a
    countermeasure for the item was received before; a delivery retracts
    an item only on a draw below 0.21. *)
Theorem behaviour_thresholds (uid : string) (g0 : Random) (d : user_data)
    (a : UserAgent.t) (tw : tweet) (m : string) (cm : bool) (g : Random)
    (a' : UserAgent.t) (g' : Random) (cs : list model_call) :
  (0 <= next_draw g0 < 1)%R →
  user_evolves (__init__ uid g0 d).1 a →
  tw_misinfo_id tw = Some m →
  receive_tweet a tw cm g = Ok (a', g', cs) →
  (0 <= retweet_probability a <= 1 / 10)%R
  ∧ (m ∉ retweeted_misinfo a → m ∈ retweeted_misinfo a' →
       (next_draw g < 1 / 10)%R
       ∧ (m ∈ received_countermeasures a → (next_draw g < 7 / 100)%R))
  ∧ (m ∈ retweeted_misinfo a → m ∉ retweeted_misinfo a' →
       (next_draw g < 21 / 100)%R).
Proof.
  intros Hu Hev Hm H.
  destruct (evolves_params _ _ Hev) as (Hrp & Hs).
  pose proof (init_probability_small uid g0 d) as Hp. rewrite <- Hrp in Hp.
  pose proof (init_susceptibility_bounds uid g0 d Hu) as Hsus.
  rewrite <- Hs in Hsus. split; [exact Hp|].
  destruct cm.
  - destruct (receive_countermeasure_cases a tw m g Hm)
      as [[[Hin Hlt] E]|[Hno (g1 & E & _)]]; rewrite E in H;
      injection H as <- <- <-; cbn.
    + split; [done|]. intros _ _. lra.
    + split; [done|]. intros Hin Hout. done.
  - destruct (receive_misinfo_cases a tw m g Hm)
      as [[Hin E]|[(Hin & Hlt & E)|(Hin & Hlt & E)]]; rewrite E in H;
      injection H as <- <- <-; cbn.
    + split; [done|]. intros Hin' Hout. done.
    + split; [|intros Hin'; done]. intros _ _.
      unfold effective_probability in Hlt.
      destruct (decide (m ∈ received_countermeasures a)) as [Hrc|Hrc].
      * split; [nra|]. intros _. nra.
      * split; [lra|]. intros Hrc'. done.
    + split; [done|]. intros Hin' Hout. done.
Qed.

Lemma behaviour_thresholds_witness :
  (0 <= retweet_probability alice <= 1 / 10)%R.
Proof.
  apply (behaviour_thresholds "alice" g_low alice_data alice tweet_m1 "m1"
           false g_low alice_shared (advanced g_low)
           [user_retweet "alice" tweet_m1]).
  - unfold next_draw. cbn. lra.
  - apply user_evolves_refl.
  - reflexivity.
  - exact alice_shares.
Defined.

End user_agent_more.

(** ** CountermeasureAgent: arbitrary histories *)

Section countermeasure_agent_more.
Import CountermeasureAgent.

Implicit Types (m : string) (c : Z) (ks : list string)
  (P A : gmap string Z).

Lemma dom_insert_all c ks A :
  dom (insert_all c ks A) = list_to_set ks ∪ dom A.
Proof.
  apply set_eq. intros k.
  rewrite elem_of_union, elem_of_list_to_set, !elem_of_dom, insert_all_lookup.
  case_decide; [split; [tauto|by eexists]|tauto].
Qed.

Lemma dom_delete_all ks P :
  dom (delete_all ks P) = dom P ∖ list_to_set ks.
Proof.
  apply set_eq. intros k.
  rewrite elem_of_difference, elem_of_list_to_set, !elem_of_dom,
    delete_all_lookup.
  case_decide; [split; [by intros [? [=]]|tauto]|tauto].
Qed.

(** One call, with no condition on the caller. *)
Lemma any_call a op (S : gset string) :
  cm_wf a →
  dom (pending_countermeasures a) ⊆ S →
  ∃ a1 cs,
    cm_apply a op = Ok (a1, cs)
    ∧ cm_wf a1
    ∧ type a1 = type a ∧ delay a1 = delay a ∧ unique_id a1 = unique_id a
    ∧ activation_threshold a1 = activation_threshold a
    ∧ dom (active_countermeasures a1)
      = dom (active_countermeasures a) ∪ list_to_set (deployed cs)
    ∧ dom (pending_countermeasures a1) ⊆ S ∪ list_to_set (activated [op])
    ∧ list_to_set (deployed cs) ⊆ S ∪ list_to_set (activated [op])
    ∧ (type a ≠ "fact_check" → deployed cs = activated [op]).
Proof.
  intros [Hwf1 Hwf2] HS. destruct op as [m t|sc]; cbn [cm_apply activated].
  - unfold activate_countermeasure. case_decide as Hty.
    + destruct (Hwf1 Hty) as [d Hd]. rewrite Hd.
      eexists _, _. split; [reflexivity|]. cbn.
      split; [split; [exact Hwf1|done]|].
      rewrite dom_insert_L. repeat split; try done; set_solver.
    + eexists _, _. split; [reflexivity|]. cbn. split; [done|].
      rewrite dom_insert_L. repeat split; try done; set_solver.
  - pose proof (step_spec a sc) as E. cbn zeta in E.
    set (c := default 0 sc) in *.
    set (ks := due_keys c (map_to_list (pending_countermeasures a))) in *.
    rewrite E. eexists _, _. split; [reflexivity|].
    rewrite deployed_map. cbn.
    assert (list_to_set ks ⊆ dom (pending_countermeasures a)) as Hks.
    { intros k Hk%elem_of_list_to_set. subst ks.
      apply elem_of_due_keys in Hk as (x & Hx & _). apply elem_of_dom. eauto. }
    rewrite dom_insert_all, dom_delete_all.
    split; [split; [done|]|].
    { intros Hty. subst ks. rewrite (Hwf2 Hty), map_to_list_empty. done. }
    repeat split; try done; try set_solver.
    intros Hty. subst ks. by rewrite (Hwf2 Hty), map_to_list_empty.
Qed.

Lemma any_history a ops (S : gset string) :
  cm_wf a →
  dom (pending_countermeasures a) ⊆ S →
  ∃ a' cs,
    cm_run a ops = Ok (a', cs)
    ∧ cm_wf a'
    ∧ type a' = type a ∧ delay a' = delay a ∧ unique_id a' = unique_id a
    ∧ activation_threshold a' = activation_threshold a
    ∧ dom (active_countermeasures a')
      = dom (active_countermeasures a) ∪ list_to_set (deployed cs)
    ∧ dom (pending_countermeasures a') ⊆ S ∪ list_to_set (activated ops)
    ∧ list_to_set (deployed cs) ⊆ S ∪ list_to_set (activated ops)
    ∧ (type a ≠ "fact_check" → deployed cs = activated ops).
Proof.
  revert a S. induction ops as [|op ops IH]; intros a S Hwf HS.
  - eexists _, _. split; [reflexivity|]. cbn.
    repeat split; try done; try apply Hwf; set_solver.
  - destruct (any_call a op S Hwf HS)
      as (a1 & cs1 & E1 & Hwf1 & Hty1 & Hd1 & Hu1 & Ht1 & Ha1 & Hp1 & Hdep1
          & Himm1).
    destruct (IH a1 (S ∪ list_to_set (activated [op])) Hwf1 Hp1)
      as (a2 & cs2 & E2 & Hwf2 & Hty2 & Hd2 & Hu2 & Ht2 & Ha2 & Hp2 & Hdep2
          & Himm2).
    assert (cm_run a (op :: ops) = Ok (a2, cs1 ++ cs2)) as Erun.
    { cbn [cm_run]. rewrite E1. cbn. by rewrite E2. }
    exists a2, (cs1 ++ cs2). split; [exact Erun|]. rewrite deployed_app.
    assert (activated (op :: ops) = activated [op] ++ activated ops) as ->
      by by destruct op.
    rewrite !list_to_set_app_L.
    split; [done|]. split; [congruence|]. split; [congruence|].
    split; [congruence|]. split; [congruence|].
    split; [rewrite Ha2, Ha1; set_solver|].
    split; [set_solver|]. split; [set_solver|].
    intros Hty. rewrite Himm1 by done. rewrite Himm2 by congruence. done.
Qed.

(** X6.  No history of [activate_countermeasure] and [step] calls on an
    agent built by the constructor raises, whatever the calls.  The agent
    keeps its type, delay and threshold; the items active at the end are
    exactly the items deployed during the history; and an item is deployed,
    or pending at the end, only if the history has activated it. *)
Theorem history_never_raises (uid ty : string)
    (st : option CountermeasureAgent.settings)
    (a0 : CountermeasureAgent.t) (ops : list cm_op) :
  __init__ uid ty st = Ok a0 →
  ∃ a cs,
    cm_run a0 ops = Ok (a, cs)
    ∧ type a = ty ∧ delay a = delay a0
    ∧ activation_threshold a = activation_threshold a0
    ∧ dom (active_countermeasures a) = list_to_set (deployed cs)
    ∧ (∀ m, m ∈ deployed cs → m ∈ activated ops)
    ∧ (∀ m, m ∈ dom (pending_countermeasures a) → m ∈ activated ops).
Proof.
  intros Hinit.
  destruct (init_ok uid ty st) as (a & E & Hwf & _ & Hty & Ha & Hp).
  rewrite Hinit in E. injection E as <-.
  destruct (any_history a0 ops ∅ Hwf)
    as (a & cs & E & _ & Hty' & Hd & _ & Ht & Hact & Hpen & Hdep & _).
  { rewrite Hp. set_solver. }
  exists a, cs. split; [exact E|]. split; [congruence|]. split; [done|].
  split; [done|]. split; [rewrite Hact, Ha; set_solver|].
  split; intros m Hm.
  - assert (m ∈ (list_to_set (deployed cs) : gset string)) as Hm'
      by by apply elem_of_list_to_set.
    apply Hdep in Hm'. set_solver.
  - apply Hpen in Hm. set_solver.
Qed.

Lemma history_never_raises_witness :
  ∃ a cs,
    cm_run fact_checker [Tick None; Activate "m1" 4; Activate "m1" 2; Tick (Some 7)]
    = Ok (a, cs)
    ∧ type a = "fact_check"
    ∧ dom (active_countermeasures a) = list_to_set (deployed cs).
Proof.
  destruct (history_never_raises "cm_fact_check" "fact_check"
              (Some (Settings (Some (2 # 1)%Q) None (Some 5) None))
              fact_checker
              [Tick None; Activate "m1" 4; Activate "m1" 2; Tick (Some 7)]
              fact_checker_built)
    as (a & cs & E & Hty & _ & _ & Hact & _).
  exists a, cs. auto.
Defined.

(** X7.  An agent of a type other than fact_check never has a pending item:
    every activation is deployed at once, so over any history the deployed
    items are the activated items, in call order and as often as they were
    activated, and [step] deploys nothing. *)
Theorem immediate_types_deploy_at_once (uid ty : string)
    (st : option CountermeasureAgent.settings)
    (a0 : CountermeasureAgent.t) (ops : list cm_op) :
  __init__ uid ty st = Ok a0 →
  ty ≠ "fact_check" →
  ∃ a cs,
    cm_run a0 ops = Ok (a, cs)
    ∧ pending_countermeasures a = ∅
    ∧ deployed cs = activated ops
    ∧ cs = map (deploy_countermeasure uid) (activated ops).
Proof.
  intros Hinit Hty.
  destruct (init_ok uid ty st) as (a & E & Hwf & Hu & Hty0 & Ha & Hp).
  rewrite Hinit in E. injection E as <-.
  destruct (any_history a0 ops ∅ Hwf)
    as (a & cs & E & [_ Hwf2] & Hty' & _ & _ & _ & _ & _ & _ & Himm).
  { rewrite Hp. set_solver. }
  exists a, cs. split; [exact E|].
  split; [apply Hwf2; congruence|]. split; [apply Himm; congruence|].
  clear -E Hty Hty0 Hu Hwf. subst ty uid. revert a0 a cs E Hty Hwf.
  induction ops as [|op ops IH]; intros a0 a cs E Hty Hwf.
  - cbn in E. by injection E as <- <-.
  - cbn [cm_run] in E.
    destruct (any_call a0 op ∅ Hwf) as (a1 & cs1 & E1 & Hwf1 & Hty1 & _ & Hu1 & _);
      [destruct Hwf as [_ ->]; [set_solver|done]|].
    rewrite E1 in E. cbn in E.
    destruct (cm_run a1 ops) as [[a2 cs2]|] eqn:E2; [|done].
    cbn in E. injection E as <- <-.
    rewrite (IH a1 a2 cs2 E2) by (done || congruence). rewrite Hu1.
    destruct op as [m t|sc]; cbn [cm_apply activated map] in *.
    + unfold activate_countermeasure in E1. rewrite decide_False in E1 by done.
      by injection E1 as <- <-.
    + pose proof (step_spec a0 sc) as Es. cbn zeta in Es. rewrite Es in E1.
      destruct Hwf as [_ Hp0]. rewrite (Hp0 Hty), map_to_list_empty in E1.
      by injection E1 as <- <-.
Qed.

Lemma immediate_types_deploy_at_once_witness :
  ∃ a cs,
    cm_run (Build "cm_early_warning" "early_warning"
              (Some (10 # 1)%Q) None None (Some (3 # 10)%Q) ∅ ∅)
      [Activate "m1" 3; Tick (Some 4); Activate "m1" 5] = Ok (a, cs)
    ∧ pending_countermeasures a = ∅
    ∧ deployed cs = ["m1"; "m1"].
Proof.
  destruct (immediate_types_deploy_at_once "cm_early_warning" "early_warning"
              None
              (Build "cm_early_warning" "early_warning"
                 (Some (10 # 1)%Q) None None (Some (3 # 10)%Q) ∅ ∅)
              [Activate "m1" 3; Tick (Some 4); Activate "m1" 5])
    as (a & cs & E & Hp & Hd & _).
  - reflexivity.
  - discriminate.
  - exists a, cs. auto.
Defined.

(** X8.  [step] is idempotent in the tick: after a step that saw tick [c],
    a further step that sees a tick not above [c] changes nothing and
    deploys nothing. *)
Theorem step_twice_is_step (self : CountermeasureAgent.t) (sc sc' : option Z)
    (self1 : CountermeasureAgent.t) (cs1 : list model_call) :
  step self sc = Ok (self1, cs1) →
  (default 0 sc' ≤ default 0 sc)%Z →
  step self1 sc' = Ok (self1, []).
Proof.
  intros E Hle. pose proof (step_spec self sc) as Es. cbn zeta in Es.
  rewrite Es in E. injection E as <- <-.
  pose proof (step_spec
                (set_pending_countermeasures
                   (delete_all
                      (due_keys (default 0 sc)
                         (map_to_list (pending_countermeasures self)))
                      (pending_countermeasures self))
                   (set_active_countermeasures
                      (insert_all (default 0 sc)
                         (due_keys (default 0 sc)
                            (map_to_list (pending_countermeasures self)))
                         (active_countermeasures self)) self)) sc') as E'.
  cbn zeta in E'. cbn [pending_countermeasures set_pending_countermeasures
                       set_active_countermeasures] in E'.
  rewrite E'.
  match goal with
  | |- context [due_keys (default 0 sc') (map_to_list ?P)] =>
    assert (due_keys (default 0 sc') (map_to_list P) = []) as ->
  end.
  { apply elem_of_nil_inv. intros k (a & Ha & Hk)%elem_of_due_keys.
    rewrite delete_all_lookup in Ha. case_decide as Hin; [done|].
    apply Hin, elem_of_due_keys. exists a. split; [done|lia]. }
  reflexivity.
Qed.

Lemma step_twice_is_step_witness :
  ∃ s1 cs1,
    step (set_pending_countermeasures {[ "m1" := 9%Z ]} fact_checker) (Some 9)
    = Ok (s1, cs1)
    ∧ step s1 (Some 9) = Ok (s1, []).
Proof.
  destruct (step_at (set_pending_countermeasures {[ "m1" := 9%Z ]} fact_checker)
              (Some 9) "m1") as (s1 & cs1 & E & _).
  exists s1, cs1. split; [exact E|].
  apply (step_twice_is_step _ (Some 9) (Some 9) s1 cs1 E). reflexivity.
Defined.

End countermeasure_agent_more.

(** ** MisinformationModel: the follower graph *)

Section network.
Import MisinformationModel.

Implicit Types (G : DiGraph) (us : list UserAgent.user_data).

Lemma user_ids_cons d us :
  user_ids (d :: us)
  = match truthy_id (UserAgent.ud_user_id d) with
    | Some uid => uid :: user_ids us
    | None => user_ids us
    end.
Proof. reflexivity. Qed.

Lemma add_user_nodes_spec us G :
  nodes (add_user_nodes us G) = list_to_set (user_ids us) ∪ nodes G
  ∧ edges (add_user_nodes us G) = edges G.
Proof.
  revert G. induction us as [|d us IH]; intros G.
  - cbn. split; [set_solver|done].
  - cbn [add_user_nodes]. rewrite user_ids_cons.
    destruct (truthy_id (UserAgent.ud_user_id d)) as [uid|].
    + destruct (IH (add_node G uid)) as [-> ->].
      change (nodes (add_node G uid)) with ({[uid]} ∪ nodes G).
      rewrite list_to_set_cons. split; [set_solver|done].
    + apply IH.
Qed.

Lemma add_network_edges_spec (es : list (string * string)) G :
  nodes (add_network_edges es G) = nodes G
  ∧ ∀ u v, (u, v) ∈ edges (add_network_edges es G) ↔
           (u, v) ∈ edges G
           ∨ ((v, u) ∈ es ∧ u ∈ nodes G ∧ v ∈ nodes G).
Proof.
  revert G. induction es as [|[follower followed] es IH]; intros G.
  - cbn. split; [done|]. intros u v. set_solver.
  - cbn [add_network_edges]. case_decide as Hin.
    + destruct (IH (add_edge G followed follower)) as [Hn He].
      assert (nodes (add_edge G followed follower) = nodes G) as HnG
        by (cbn; set_solver).
      split; [by rewrite Hn|]. intros u v. rewrite He, HnG. cbn.
      rewrite elem_of_union, elem_of_singleton, elem_of_cons.
      split.
      * intros [[[= -> ->]|?]|(? & ? & ?)]; [right|by left|right]; tauto.
      * intros [?|([[= -> ->]|?] & ? & ?)]; tauto.
    + destruct (IH G) as [Hn He]. split; [done|]. intros u v.
      rewrite He, elem_of_cons. split; [tauto|].
      intros [?|([[= -> ->]|?] & ? & ?)]; tauto.
Qed.

(** X9.  With a non-empty list of (follower, followed) pairs,
    [_setup_network] takes no draw; the nodes are the identities of the user
    records that have one; and there is an edge from [u] to [v] exactly when
    the pair ([v], [u]) is listed and both are nodes: edges point from the
    followed user to the follower, and pairs naming an unknown user are
    dropped. *)
Theorem explicit_network (us : list UserAgent.user_data)
    (network_edges : list (string * string)) (g : Random) :
  network_edges ≠ [] →
  ∃ G,
    _setup_network us network_edges g = (G, g)
    ∧ nodes G = list_to_set (user_ids us)
    ∧ ∀ u v, (u, v) ∈ edges G ↔
             (v, u) ∈ network_edges ∧ u ∈ nodes G ∧ v ∈ nodes G.
Proof.
  intros Hne. unfold _setup_network.
  destruct network_edges as [|e es]; [done|].
  eexists. split; [reflexivity|].
  destruct (add_user_nodes_spec us (Graph ∅ ∅)) as [Hn He].
  destruct (add_network_edges_spec (e :: es) (add_user_nodes us (Graph ∅ ∅)))
    as [Hn' He'].
  rewrite Hn', Hn. cbn. split; [set_solver|].
  intros u v. rewrite He', He, Hn. cbn. set_solver.
Qed.

Lemma explicit_network_witness :
  ∃ G,
    _setup_network [alice_data] [("bob", "alice"); ("alice", "alice")] g_low
    = (G, g_low)
    ∧ nodes G = {[ "alice" ]}
    ∧ ("alice", "alice") ∈ edges G
    ∧ ("alice", "bob") ∉ edges G.
Proof.
  destruct (explicit_network [alice_data]
              [("bob", "alice"); ("alice", "alice")] g_low)
    as (G & E & Hn & He); [done|].
  exists G. split; [exact E|]. rewrite Hn in He.
  assert (list_to_set (user_ids [alice_data]) = ({[ "alice" ]} : gset string))
    as Hids by (cbn; set_solver).
  rewrite Hids in Hn, He. split; [exact Hn|]. split.
  - apply He. split; [|set_solver]. right. left.
  - intros (_ & _ & Hb)%He. set_solver.
Defined.

(** The inner loop keeps the nodes and adds only edges from the source to
    other users. *)
Lemma link_targets_spec (N : gset string) (Q : string → string → Prop)
    source p (targets : list UserAgent.user_data) G g :
  source ∈ N →
  list_to_set (user_ids targets) ⊆ N →
  (∀ v, v ∈ N → v ≠ source → Q source v) →
  nodes G = N → (∀ u v, (u, v) ∈ edges G → Q u v) →
  ∃ G' g',
    link_targets source p targets G g = (G', g')
    ∧ nodes G' = N ∧ (∀ u v, (u, v) ∈ edges G' → Q u v)
    ∧ draws g' = draws g.
Proof.
  intros Hs. revert G g.
  induction targets as [|d targets IH]; intros G g Hts HQ Hn He.
  - by eexists _, _.
  - cbn [link_targets]. rewrite user_ids_cons in Hts.
    destruct (truthy_id (UserAgent.ud_user_id d)) as [tid|]; [|by apply IH].
    rewrite list_to_set_cons in Hts.
    assert (tid ∈ N) as Htid by set_solver.
    assert (list_to_set (user_ids targets) ⊆ N) as Hts' by set_solver.
    case_decide as Hneq; [|by apply IH].
    unfold random. destruct (Rlt_dec _ _) as [Hlt|Hlt].
    + edestruct (IH (add_edge G source tid))
        as (G' & g' & -> & ? & ? & Hd); [done|done| | |].
      * cbn. set_solver.
      * intros u v. cbn. rewrite elem_of_union, elem_of_singleton.
        intros [[= -> ->]|?]; [by apply HQ|by apply He].
      * by eexists _, _.
    + edestruct (IH G) as (G' & g' & -> & ? & ? & Hd); [done..|].
      by eexists _, _.
Qed.

Lemma link_sources_spec (N : gset string) us (sources : list UserAgent.user_data)
    G g :
  list_to_set (user_ids us) ⊆ N →
  (∀ d, d ∈ sources → d ∈ us) →
  nodes G = N →
  (∀ u v, (u, v) ∈ edges G →
          u ≠ v ∧ u ∈ N ∧ v ∈ N ∧ influential us u) →
  ∃ G' g',
    link_sources us sources G g = (G', g')
    ∧ nodes G' = N
    ∧ (∀ u v, (u, v) ∈ edges G' →
              u ≠ v ∧ u ∈ N ∧ v ∈ N ∧ influential us u)
    ∧ draws g' = draws g
    ∧ ((∀ u, ¬ influential us u) → G' = G ∧ g' = g).
Proof.
  intros Hus. revert G g.
  induction sources as [|d sources IH]; intros G g Hsub Hn He.
  - by eexists _, _.
  - cbn [link_sources].
    assert (∀ d', d' ∈ sources → d' ∈ us) as Hsub'
      by (intros d' ?; apply Hsub; by right).
    destruct (truthy_id (UserAgent.ud_user_id d)) as [sid|] eqn:Hsid;
      [|by apply IH].
    case_bool_decide as Hinf; [|by apply IH].
    assert (influential us sid) as Hsrc.
    { exists d. split; [apply Hsub; left|done]. }
    assert (sid ∈ N) as HsN.
    { apply Hus, elem_of_list_to_set. unfold user_ids.
      apply list_elem_of_omap. exists d. split; [apply Hsub; left|done]. }
    destruct (link_targets_spec N
                (λ u v, u ≠ v ∧ u ∈ N ∧ v ∈ N ∧ influential us u)
                sid
                (Rmin (1 / 10)
                   (IZR (default 0%Z (UserAgent.ud_followers_count d)) / 1000000))
                us G g)
      as (G1 & g1 & E1 & Hn1 & He1 & Hd1); [done|done| |done|done|].
    { intros v Hv Hne. repeat split; try done; by intros ->. }
    rewrite E1.
    destruct (IH G1 g1 Hsub' Hn1 He1) as (G' & g' & -> & ? & ? & Hd & _).
    eexists _, _. split; [done|]. split; [done|]. split; [done|].
    split; [congruence|]. intros Hnone. by destruct (Hnone sid).
Qed.

(** X10.  With no explicit edges [_setup_network] draws a synthetic graph.
    Its nodes are again the identities of the user records; every edge goes
    from a user with more than 1000 followers to a different user, both of
    them nodes, so there are no self-loops; the draws of the stream are
    untouched; and when no user has more than 1000 followers the graph has
    no edge and no draw is taken. *)
Theorem synthetic_network (us : list UserAgent.user_data) (g : Random) :
  ∃ G g',
    _setup_network us [] g = (G, g')
    ∧ nodes G = list_to_set (user_ids us)
    ∧ (∀ u v, (u, v) ∈ edges G →
              u ≠ v ∧ u ∈ nodes G ∧ v ∈ nodes G ∧ influential us u)
    ∧ draws g' = draws g
    ∧ ((∀ u, ¬ influential us u) → edges G = ∅ ∧ g' = g).
Proof.
  unfold _setup_network, _create_synthetic_network.
  destruct (add_user_nodes_spec us (Graph ∅ ∅)) as [Hn He]. cbn in Hn, He.
  destruct (link_sources_spec (list_to_set (user_ids us)) us us
              (add_user_nodes us (Graph ∅ ∅)) g)
    as (G & g' & E & HnG & HeG & Hd & Hnone).
  - done.
  - done.
  - rewrite Hn. set_solver.
  - intros u v. rewrite He. set_solver.
  - exists G, g'. split; [exact E|]. split; [exact HnG|].
    split; [by rewrite HnG|]. split; [exact Hd|].
    intros H. destruct (Hnone H) as [-> ->]. by rewrite He.
Qed.

End network.

(** ** MisinformationModel: agents and schedule *)

Section setup_more.
Import MisinformationModel.

Lemma create_user_agents_none (us : list UserAgent.user_data) (g : Random)
    (acc : list agent) :
  user_ids us = [] → create_user_agents us g acc = Ok (acc, g).
Proof.
  induction us as [|d us IH]; [done|]. rewrite user_ids_cons.
  cbn [create_user_agents].
  destruct (truthy_id (UserAgent.ud_user_id d)); [done|exact IH].
Qed.

Lemma create_user_agents_some (us : list UserAgent.user_data) (g : Random)
    (acc : list agent) :
  user_ids us ≠ [] →
  create_user_agents us g acc = Raise (AttributeError "add").
Proof.
  induction us as [|d us IH]; [done|]. rewrite user_ids_cons.
  cbn [create_user_agents].
  destruct (truthy_id (UserAgent.ud_user_id d)) as [uid|]; [|exact IH].
  intros _. by destruct (UserAgent.__init__ uid g d).
Qed.

(** X11.  [_create_agents] registers every agent through [self.add] or
    [self.add_agent], which the model does not have.  So it returns only
    when there is nothing to register: no user record has an identity and
    no countermeasure is enabled; it then takes no draw and the model has
    no agent.  With a user record that has an identity, or with the
    key_node flag, it raises AttributeError for [add]; with no such record,
    the key_node flag off and the fact_check or early_warning flag on, it
    raises AttributeError for [add_agent].  A model that the constructor
    returns therefore has no agent. *)
Theorem create_agents_outcomes (us : list UserAgent.user_data)
    (cs : countermeasure_settings) (g : Random) :
  let key_node := default false (key_node_enabled cs) in
  let fact_check := default false (fact_check_enabled cs) in
  let early_warning := default false (early_warning_enabled cs) in
  (user_ids us ≠ [] →
     _create_agents us cs g = Raise (AttributeError "add"))
  ∧ (user_ids us = [] → key_node = true →
       _create_agents us cs g = Raise (AttributeError "add"))
  ∧ (user_ids us = [] → key_node = false →
       fact_check = true ∨ early_warning = true →
       _create_agents us cs g = Raise (AttributeError "add_agent"))
  ∧ (user_ids us = [] → key_node = false → fact_check = false →
       early_warning = false →
       _create_agents us cs g = Ok ([], g))
  ∧ (∀ d st ns sc m g',
       __init__ d st ns sc g = Ok (m, g') →
       agents m = [] ∧ g' = g ∧ user_ids (users d) = []).
Proof.
  assert (∀ us cs,
            user_ids us ≠ [] →
            _create_agents us cs g = Raise (AttributeError "add")) as Hsome.
  { intros us0 cs0 Hus. unfold _create_agents.
    by rewrite (create_user_agents_some us0 g [] Hus). }
  assert (∀ us cs,
            user_ids us = [] →
            _create_agents us cs g
            = all ← create_countermeasure_agents cs []; Ok (all, g)) as Hnone.
  { intros us0 cs0 Hus. unfold _create_agents.
    by rewrite (create_user_agents_none us0 g [] Hus). }
  cbn zeta. split; [apply Hsome|].
  split; [|split; [|split]].
  - intros Hus Hk. rewrite (Hnone us cs Hus).
    unfold create_countermeasure_agents. by rewrite Hk.
  - intros Hus Hk Hfe. rewrite (Hnone us cs Hus).
    unfold create_countermeasure_agents. rewrite Hk.
    destruct (default false (fact_check_enabled cs)); [done|].
    destruct Hfe as [[=]| ->]. done.
  - intros Hus Hk Hf He. rewrite (Hnone us cs Hus).
    unfold create_countermeasure_agents. by rewrite Hk, Hf, He.
  - intros d st ns sc m g' Hinit. unfold __init__ in Hinit.
    destruct (decide (user_ids (users d) = [])) as [Hus|Hus];
      [|by rewrite (Hsome _ _ Hus) in Hinit].
    rewrite (Hnone _ _ Hus) in Hinit.
    unfold create_countermeasure_agents in Hinit.
    destruct (default false (key_node_enabled (default no_settings st)));
      [done|].
    destruct (default false (fact_check_enabled (default no_settings st)));
      [done|].
    destruct (default false (early_warning_enabled (default no_settings st)));
      [done|].
    cbn in Hinit.
    destruct (_schedule_tweets 60 (tweets_timeline d) []); [|done].
    cbn in Hinit. by injection Hinit as <- <-.
Qed.

Lemma create_agents_outcomes_witness :
  _create_agents [alice_data] no_settings g_low
  = Raise (AttributeError "add")
  ∧ _create_agents [] (CmSettings None None None (Some true) None None
                         None None None) g_low
    = Raise (AttributeError "add_agent").
Proof.
  split.
  - destruct (create_agents_outcomes [alice_data] no_settings g_low)
      as (Hsome & _).
    apply Hsome. vm_compute. discriminate.
  - destruct (create_agents_outcomes []
                (CmSettings None None None (Some true) None None None None
                   None) g_low) as (_ & _ & Hagent & _).
    apply Hagent; [reflexivity|reflexivity|by left].
Defined.

(** *** Errors and edges of the schedule *)

Lemma schedule_rows_nan tu (rows : list tweet) acc :
  ¬ Forall has_time rows →
  schedule_rows tu rows acc
  = Raise (ValueError "cannot convert float NaN to integer").
Proof.
  revert acc. induction rows as [|tw rows IH]; intros acc Hn.
  - destruct Hn. constructor.
  - cbn. destruct (tw_time_since_start tw) as [s|] eqn:Hs; [|done].
    apply IH. intros Hall. apply Hn. constructor; [by exists s|done].
Qed.

(** X12.  [_schedule_tweets] on a frame without the column
    time_since_start leaves the schedule as it is and raises nothing.  With
    the column present it appends one entry per row when every row has a
    time, and raises ValueError as soon as one row has none (NaN); nothing
    else makes it fail. *)
Theorem schedule_tweets_outcomes (tu : Z) (df : DataFrame)
    (scheduled : list (Z * tweet)) :
  ("time_since_start" ∉ columns df →
     _schedule_tweets tu df scheduled = Ok scheduled)
  ∧ ("time_since_start" ∈ columns df → Forall has_time (records df) →
       ∃ es, _schedule_tweets tu df scheduled = Ok (scheduled ++ es)
             ∧ es.*2 ≡ₚ records df)
  ∧ ("time_since_start" ∈ columns df → ¬ Forall has_time (records df) →
       _schedule_tweets tu df scheduled
       = Raise (ValueError "cannot convert float NaN to integer")).
Proof.
  unfold _schedule_tweets.
  destruct (sort_values_sorted (records df)) as [_ Hperm].
  split; [|split].
  - intros Hcol. by rewrite bool_decide_eq_true_2.
  - intros Hcol Hrows.
    rewrite bool_decide_eq_false_2 by (intros H; by apply H).
    destruct (schedule_rows_spec tu (sort_values (records df)) scheduled)
      as (es & -> & Hes & _).
    { rewrite Forall_forall in Hrows |- *. intros tw Htw. apply Hrows.
      by rewrite <- Hperm. }
    exists es. split; [done|]. by rewrite Hes.
  - intros Hcol Hrows.
    rewrite bool_decide_eq_false_2 by (intros H; by apply H).
    apply schedule_rows_nan. intros Hall. apply Hrows.
    rewrite Forall_forall in Hall |- *. intros tw Htw. apply Hall.
    by rewrite Hperm.
Qed.

Lemma schedule_tweets_outcomes_witness :
  _schedule_tweets 60
    (Frame ["misinfo_id"; "time_since_start"]
       [tweet_m1; Tweet (Some "m1") None false None]) []
  = Raise (ValueError "cannot convert float NaN to integer").
Proof.
  apply (schedule_tweets_outcomes 60
           (Frame ["misinfo_id"; "time_since_start"]
              [tweet_m1; Tweet (Some "m1") None false None]) []).
  - cbn. apply list_elem_of_further, list_elem_of_here.
  - cbn. intros H. apply Forall_cons in H as [_ H].
    apply Forall_cons in H as [[s [=]] _].
Defined.

(** X13.  Quantisation truncates toward zero, so on times that are not
    positive it rounds up: a time [s <= 0] goes to tick ceiling(s / 60),
    and every time with [-60 < s <= 0] goes to tick 0, whereas
    floor(s / 60) is -1 for [-60 < s < 0]. *)
Theorem negative_time_rounds_up (s : Q) :
  (s <= 0)%Q →
  time_step 60 s = Qceiling (s / 60)
  ∧ ((-60 < s)%Q → time_step 60 s = 0%Z)
  ∧ ((-60 < s)%Q → (s < 0)%Q → Qfloor (s / 60) = (-1)%Z).
Proof.
  intros Hs.
  assert (s / 60 <= 0)%Q as H0.
  { unfold Qdiv. rewrite <- (Qmult_0_l (/ 60)).
    apply Qmult_le_compat_r; [done|]. by compute. }
  assert (time_step 60 s = Qceiling (s / 60)) as Hc
    by (unfold time_step; by apply py_int_nonpos).
  split; [exact Hc|].
  assert ((-60 < s)%Q → (-1 < s / 60)%Q) as Hlow.
  { intros Hl. apply Qlt_shift_div_l; [reflexivity|]. exact Hl. }
  split.
  - intros Hl. rewrite Hc.
    pose proof (Qceiling_resp_le _ _ H0) as Hup.
    change (Qceiling 0) with 0%Z in Hup.
    pose proof (Qle_ceiling (s / 60)) as Hle.
    assert (inject_Z (-1) < inject_Z (Qceiling (s / 60)))%Q as Hz
      by (eapply Qlt_le_trans; [apply (Hlow Hl)|exact Hle]).
    rewrite <- Zlt_Qlt in Hz. lia.
  - intros Hl Hneg.
    assert (s / 60 < 0)%Q as Hneg'.
    { apply Qlt_shift_div_r; [reflexivity|]. by rewrite Qmult_0_l. }
    pose proof (Qfloor_le (s / 60)) as Hfl.
    pose proof (Qlt_floor (s / 60)) as Hfu.
    assert (inject_Z (Qfloor (s / 60)) < inject_Z 0)%Q as H1
      by (eapply Qle_lt_trans; eauto).
    assert (inject_Z (-1) < inject_Z (Qfloor (s / 60) + 1))%Q as H2
      by (eapply Qlt_trans; [apply (Hlow Hl)|exact Hfu]).
    rewrite <- Zlt_Qlt in H1, H2. lia.
Qed.

Lemma negative_time_rounds_up_witness :
  time_step 60 (-30 # 1) = 0%Z ∧ Qfloor ((-30 # 1) / 60) = (-1)%Z.
Proof.
  destruct (negative_time_rounds_up (-30 # 1)%Q) as (_ & H0 & H1).
  - by compute.
  - split; [apply H0|apply H1]; reflexivity.
Defined.

(** X14.  Quantisation is monotone for a positive time unit: a later time
    never gets an earlier tick.  With the unit 60, a non-negative time [s]
    with tick [k] lies in the interval [60 k, 60 (k + 1)). *)
Theorem quantisation_monotone (tu : Z) (s s' : Q) :
  (0 < tu)%Z → (s <= s')%Q →
  (time_step tu s ≤ time_step tu s')%Z
  ∧ ((0 <= s)%Q →
       (inject_Z (60 * time_step 60 s) <= s)%Q
       ∧ (s < inject_Z (60 * (time_step 60 s + 1)))%Q).
Proof.
  intros Htu Hle. split; [apply time_step_mono; [lia|done]|].
  intros Hs. rewrite (time_step_floor s Hs).
  pose proof (Qfloor_le (s / 60)) as Hfl.
  pose proof (Qlt_floor (s / 60)) as Hfu.
  rewrite !inject_Z_mult. split.
  - apply (Qmult_le_l _ _ 60) in Hfl; [|reflexivity].
    rewrite Qmult_div_r in Hfl; [exact Hfl|discriminate].
  - apply (Qmult_lt_l _ _ 60) in Hfu; [|reflexivity].
    rewrite Qmult_div_r in Hfu; [exact Hfu|discriminate].
Qed.

Lemma quantisation_monotone_witness :
  (time_step 60 (59 # 1) ≤ time_step 60 (75 # 1))%Z
  ∧ (inject_Z (60 * time_step 60 (59 # 1)) <= 59 # 1)%Q.
Proof.
  destruct (quantisation_monotone 60 (59 # 1) (75 # 1)) as [Hm Hi].
  - lia.
  - by compute.
  - split; [exact Hm|]. apply Hi. by compute.
Defined.

End setup_more.

(** ** MisinformationModel: runs of the engine *)

Section engine_more.
Import MisinformationModel.

Implicit Types (self : MisinformationModel.t) (ticks : list Z)
  (l todo done : list agent) (cs : list model_call).




(** *** A model in which nothing is pending *)











End engine_more.

(** ** MisinformationModel: a timeline that is already in order *)

Section ordered_timeline.
Import MisinformationModel.

Lemma time_lt_order (a b : tweet) : time_lt a b → time_order a b.
Proof.
  intros (x & y & Ha & Hb & Hlt). unfold time_order, time_le.
  rewrite Ha, Hb. apply Qle_bool_iff. by apply Qlt_le_weak.
Qed.

Lemma time_lt_not_back (a b : tweet) : time_lt a b → ¬ time_order b a.
Proof.
  intros (x & y & Ha & Hb & Hlt). unfold time_order, time_le.
  rewrite Ha, Hb. rewrite Qle_bool_iff. by apply Qlt_not_le.
Qed.

Lemma increasing_is_ordered (rows : list tweet) :
  StronglySorted time_lt rows → StronglySorted time_order rows.
Proof.
  induction 1 as [|tw rows _ IH Hhd]; constructor; [done|].
  eapply Forall_impl; [exact Hhd|]. apply time_lt_order.
Qed.

Lemma increasing_trichotomy (rows : list tweet) (a b : tweet) :
  StronglySorted time_lt rows → a ∈ rows → b ∈ rows →
  a = b ∨ time_lt a b ∨ time_lt b a.
Proof.
  induction 1 as [|tw rows _ IH Hhd]; intros Ha Hb.
  - by apply not_elem_of_nil in Ha.
  - rewrite Forall_forall in Hhd.
    apply elem_of_cons in Ha as [->|Ha], Hb as [->|Hb]; auto.
Qed.

(** X19.  When the rows of the timeline all have a time and come in
    strictly increasing time order, [_schedule_tweets] schedules them in
    exactly that order: sorting leaves the rows where they are, and the
    ticks of the schedule are non-decreasing. *)
Theorem increasing_timeline_keeps_order (tu : Z) (df : DataFrame) :
  (0 ≤ tu)%Z →
  "time_since_start" ∈ columns df →
  Forall has_time (records df) →
  StronglySorted time_lt (records df) →
  ∃ es,
    _schedule_tweets tu df [] = Ok es
    ∧ es.*2 = records df
    ∧ Forall (entry_ok tu) es
    ∧ Sorted Z.le es.*1.
Proof.
  intros Htu Hcol Hrows Hinc.
  destruct (sort_values_sorted (records df)) as [Hsorted Hperm].
  assert (sort_values (records df) = records df) as Hsame.
  { apply (StronglySorted_unique_strong time_order);
      [|done|by apply increasing_is_ordered|done].
    intros a b Ha Hb Hab Hba. rewrite Hperm in Ha.
    destruct (increasing_trichotomy _ a b Hinc Ha Hb) as [?|[Hlt|Hlt]];
      [done| |]; by apply time_lt_not_back in Hlt. }
  unfold _schedule_tweets.
  rewrite bool_decide_eq_false_2 by (intros H; by apply H).
  rewrite Hsame.
  destruct (schedule_rows_spec tu (records df) [] Hrows) as (es & -> & Hes & Hok).
  exists es. split; [done|]. split; [done|]. split; [done|].
  apply StronglySorted_Sorted, (entries_sorted tu); [done|done|].
  rewrite Hes. by apply increasing_is_ordered.
Qed.

Lemma increasing_timeline_keeps_order_witness :
  ∃ es,
    _schedule_tweets 60
      (Frame ["time_since_start"] [tweet_m1; tweet_m1_soon; tweet_m1_late]) []
    = Ok es
    ∧ es.*2 = [tweet_m1; tweet_m1_soon; tweet_m1_late].
Proof.
  destruct (increasing_timeline_keeps_order 60
              (Frame ["time_since_start"]
                 [tweet_m1; tweet_m1_soon; tweet_m1_late]))
    as (es & E & Hes & _).
  - lia.
  - cbn. apply list_elem_of_here.
  - cbn. repeat constructor; by eexists.
  - cbn. repeat constructor; eexists _, _; repeat split; reflexivity.
  - exists es. auto.
Defined.

End ordered_timeline.
